(** * A shallow embedding of the NeurIPS scraper and annotator

    [scrapper.py] crawls the yearly index pages of the proceedings site,
    scrapes each paper page, downloads the PDF and appends one row per paper
    to a CSV file from a pool of worker threads.  [annotation.py] labels the
    rows of that file with an external classifier.

    Python strings are sequences of Unicode code points, so a string is a
    [list N] here.  The libraries the two scripts call (requests,
    BeautifulSoup, the Unicode tables behind [str.isalnum], the Gemini
    service) are not part of the repository: the web is an explicit
    parameter of every operation that fetches, and the parser, the Unicode
    table and the disk that takes the PDF files are fields of the class
    [External]. *)

From Stdlib Require Import ZArith NArith List String Ascii DecimalString Lia.
From stdpp Require Import base option list gmap.

Local Open Scope N_scope.

(** ** Python strings *)

Abbreviation pystr := (list N).

(** A string literal of the source. *)
Definition py (s : string) : pystr := map N_of_ascii (list_ascii_of_string s).
Arguments py _ : simpl never.

(** [s.startswith(p)] *)
Fixpoint startswith (s p : pystr) : bool :=
  match p, s with
  | [], _ => true
  | _ :: _, [] => false
  | a :: p', b :: s' => (a =? b) && startswith s' p'
  end.

(** [s.endswith(p)] *)
Definition endswith (s p : pystr) : bool := startswith (rev s) (rev p).

(** [sub in s] for strings *)
Fixpoint contains (s sub : pystr) : bool :=
  startswith s sub ||
  match s with
  | [] => false
  | _ :: s' => contains s' sub
  end.

(** [c.isspace()]: the code points CPython's [_PyUnicode_IsWhitespace]
    accepts, which are the ones [str.strip()] removes. *)
Definition isspace (c : N) : bool :=
  ((9 <=? c) && (c <=? 13)) || ((28 <=? c) && (c <=? 32)) ||
  (c =? 133) || (c =? 160) || (c =? 5760) ||
  ((8192 <=? c) && (c <=? 8202)) ||
  (c =? 8232) || (c =? 8233) || (c =? 8239) || (c =? 8287) || (c =? 12288).

Fixpoint lstrip (s : pystr) : pystr :=
  match s with
  | [] => []
  | c :: s' => if isspace c then lstrip s' else s
  end.

Definition rstrip (s : pystr) : pystr := rev (lstrip (rev s)).

(** [s.strip()] *)
Definition strip (s : pystr) : pystr := rstrip (lstrip s).

(** [s.split(sep)] for a one-character separator: empty pieces are kept and
    the result is never empty. *)
Fixpoint split (sep : N) (s : pystr) : list pystr :=
  match s with
  | [] => [[]]
  | c :: s' =>
      if c =? sep then [] :: split sep s'
      else match split sep s' with
           | [] => [[c]]
           | piece :: pieces => (c :: piece) :: pieces
           end
  end.

(** [str(n)] for an integer, as an f-string formats it. *)
Definition str (n : Z) : pystr := py (NilZero.string_of_int (Z.to_int n)).

(** [sep.join(l)] *)
Fixpoint join (sep : pystr) (l : list pystr) : pystr :=
  match l with
  | [] => []
  | [x] => x
  | x :: rest => x ++ sep ++ join sep rest
  end.

(** Truth value of a string: the empty string is false. *)
Definition truthy (s : pystr) : bool :=
  match s with [] => false | _ :: _ => true end.

(** ** The libraries outside the repository *)

Module bs4.
(** What the scraper observes of an element of a parsed page: its tag
    name, its CSS classes, its [href] attribute when it has one, its
    [.string] (the single text child, when there is exactly one) and its
    [.text] (all the text below it). *)
Record Tag := {
  name : pystr;
  class_ : list pystr;
  href : option pystr;
  string_ : option pystr;
  text : pystr
}.

(** A parsed page, as the elements of the tree in document order: the
    order in which [find_all] lists them and [find] searches them. *)
Abbreviation Soup := (list Tag).

Definition has_name (n : pystr) (t : Tag) : bool :=
  bool_decide (name t = n).

(** [soup.find(n)] *)
Definition find (soup : Soup) (n : pystr) : option Tag :=
  head (filter (fun t => has_name n t) soup).

(** [soup.find(n, class_=c)] *)
Definition find_class (soup : Soup) (n c : pystr) : option Tag :=
  head (filter (fun t => has_name n t && bool_decide (c ∈ class_ t)) soup).

(** [soup.find_all("a", href=True)] *)
Definition find_all_href (soup : Soup) (n : pystr) : list Tag :=
  filter (fun t => has_name n t && bool_decide (is_Some (href t))) soup.

(** [soup.find("a", href=True, string=label)] *)
Definition find_href_string (soup : Soup) (n label : pystr) : option Tag :=
  head (filter (fun t => bool_decide (string_ t = Some label))
               (find_all_href soup n)).

(** [link["href"]] of an element found with [href=True]. *)
Definition get_href (t : Tag) : pystr := default [] (href t).
End bs4.

Module requests.
(** A response whose status [raise_for_status] accepts. *)
Record Response := {
  text : pystr;
  content : list N
}.
End requests.

(** The web at the time of the run: [None] where [requests.get] or
    [raise_for_status] raises. *)
Definition Web := pystr -> option requests.Response.

Class External := {
  (** [BeautifulSoup(text, "html.parser")] *)
  BeautifulSoup : pystr -> bs4.Soup;
  (** [c.isalnum()] for the code points above ASCII *)
  unicode_isalnum : N -> bool;
  (** [open(path, "wb")] followed by [f.write(content)]: [None] when [open]
      raises, so that no file is made, and otherwise the bytes the file
      holds when the [with] block is left (all of [content], or what had
      been written when [write] raised) *)
  open_wb : pystr -> list N -> option (list N)
}.

(** [c.isalnum()] *)
Definition isalnum `{External} (c : N) : bool :=
  if c <? 128 then
    ((48 <=? c) && (c <=? 57)) || ((65 <=? c) && (c <=? 90)) ||
    ((97 <=? c) && (c <=? 122))
  else unicode_isalnum c.

(** ** scrapper.py *)

Module scrapper.

Definition BASE_URL : pystr := py "https://papers.nips.cc".

(** [range(2020, 2025)] *)
Definition YEARS : list Z := seqZ 2020 (2025 - 2020).

Definition PDF_FOLDER : pystr := py "neurips_pdfs".

(** The file whose content is the field [csv] of the world below. *)
Definition CSV_FILE : pystr := py "neurips_2020_2024_data.csv".

(** The dictionary [scrape_paper_data] returns; its five keys are fixed. *)
Record PaperRecord := {
  title : pystr;
  authors : pystr;
  abstract : pystr;
  pdf_url : option pystr;
  year : pystr
}.

(** The CSV file is a sequence of cells and line ends.  Quoting and
    separators are pandas' business; what matters here is which cells have
    reached the file and in which order. *)
Inductive token :=
| Cell (s : pystr)
| EOL.

(** The line [to_csv(..., header=False, index=False)] writes for a frame of
    one record: the values in key order, [None] as the empty cell. *)
Definition row_cells (paper_data : PaperRecord) : list pystr :=
  [title paper_data; authors paper_data; abstract paper_data;
   default [] (pdf_url paper_data); year paper_data].

Definition line (cells : list pystr) : list token := (Cell <$> cells) ++ [EOL].

Definition row_tokens (paper_data : PaperRecord) : list token :=
  line (row_cells paper_data).

Definition header : list pystr :=
  [py "title"; py "authors"; py "abstract"; py "pdf_url"; py "year"].

(** The lines of a file: the cells up to each line end. *)
Fixpoint rows_from (cur : list pystr) (file : list token) : list (list pystr) :=
  match file with
  | [] => match cur with [] => [] | _ :: _ => [cur] end
  | Cell s :: file' => rows_from (cur ++ [s]) file'
  | EOL :: file' => cur :: rows_from [] file'
  end.

Definition rows (file : list token) : list (list pystr) := rows_from [] file.

(** The module's globals and the files it writes.  [http_log] is a ghost
    field: the URLs [requests.get] was called with, in call order. *)
Record World := {
  pdfs : gmap pystr (list N);
  csv : list token;
  all_papers : list PaperRecord;
  lock : bool;
  http_log : list pystr
}.

Definition set_pdfs (f : gmap pystr (list N) -> gmap pystr (list N)) (w : World) : World :=
  {| pdfs := f (pdfs w); csv := csv w; all_papers := all_papers w;
     lock := lock w; http_log := http_log w |}.

Definition set_csv (f : list token -> list token) (w : World) : World :=
  {| pdfs := pdfs w; csv := f (csv w); all_papers := all_papers w;
     lock := lock w; http_log := http_log w |}.

Definition set_all_papers (f : list PaperRecord -> list PaperRecord) (w : World) : World :=
  {| pdfs := pdfs w; csv := csv w; all_papers := f (all_papers w);
     lock := lock w; http_log := http_log w |}.

Definition set_lock (b : bool) (w : World) : World :=
  {| pdfs := pdfs w; csv := csv w; all_papers := all_papers w;
     lock := b; http_log := http_log w |}.

Definition set_http_log (f : list pystr -> list pystr) (w : World) : World :=
  {| pdfs := pdfs w; csv := csv w; all_papers := all_papers w;
     lock := lock w; http_log := f (http_log w) |}.

(** The state the module's top level leaves when it is imported: the CSV
    file gets its header line unless it exists already, and the list and
    the lock are fresh. *)
Definition module_init (files : gmap pystr (list N)) (csv_file : option (list token)) : World :=
  {| pdfs := files;
     csv := match csv_file with Some file => file | None => line header end;
     all_papers := [];
     lock := false;
     http_log := [] |}.

(** [requests.get(url)] followed by [raise_for_status()] *)
Definition requests_get (web : Web) (url : pystr) (w : World) : World * option requests.Response :=
  (set_http_log (fun l => l ++ [url]) w, web url).

Section Operations.
Context `{External}.

(** The test of line 49. *)
Definition is_paper_href (year : Z) (href : pystr) : bool :=
  startswith href (py "/paper_files/paper/" ++ str year ++ py "/") &&
  negb (contains href (py "/file/")).

(** One turn of the loop of lines 46-53. *)
Definition add_paper_link (year : Z) (paper_links : list pystr) (link : bs4.Tag) : list pystr :=
  let href := bs4.get_href link in
  if is_paper_href year href then
    let full_url := BASE_URL ++ href in
    if bool_decide (full_url ∈ paper_links) then paper_links
    else paper_links ++ [full_url]
  else paper_links.

Definition get_paper_links (web : Web) (year : Z) (w : World) : World * list pystr :=
  let url := BASE_URL ++ py "/paper_files/paper/" ++ str year in
  let '(w, response) := requests_get web url w in
  match response with
  | Some response =>
      let soup := BeautifulSoup (requests.text response) in
      let links := bs4.find_all_href soup (py "a") in
      (w, fold_left (add_paper_link year) links [])
  | None => (w, [])
  end.

(** The loop of lines 79-82: the first label that some link carries. *)
Fixpoint find_pdf_label (soup : bs4.Soup) (labels : list pystr) : option bs4.Tag :=
  match labels with
  | [] => None
  | label :: labels' =>
      match bs4.find_href_string soup (py "a") label with
      | Some pdf_link => Some pdf_link
      | None => find_pdf_label soup labels'
      end
  end.

(** The loop of lines 85-88: the first link whose target ends in
    [-Paper.pdf]. *)
Fixpoint find_pdf_suffix (links : list bs4.Tag) : option bs4.Tag :=
  match links with
  | [] => None
  | link :: links' =>
      if endswith (bs4.get_href link) (py "-Paper.pdf") then Some link
      else find_pdf_suffix links'
  end.

Definition find_pdf_link (soup : bs4.Soup) : option bs4.Tag :=
  match find_pdf_label soup [py "Download PDF"; py "PDF"; py "Paper PDF"] with
  | Some pdf_link => Some pdf_link
  | None => find_pdf_suffix (bs4.find_all_href soup (py "a"))
  end.

(** [None] where the source returns [None] from its [except] clause: when
    the fetch fails, and when [url.split("/")[5]] is out of range. *)
Definition scrape_paper_data (web : Web) (url : pystr) (w : World) : World * option PaperRecord :=
  let '(w, response) := requests_get web url w in
  match response with
  | Some response =>
      let soup := BeautifulSoup (requests.text response) in
      let title :=
        match bs4.find soup (py "h4") with
        | Some h4 => strip (bs4.text h4)
        | None => py "N/A"
        end in
      let authors :=
        match bs4.find_class soup (py "p") (py "authors") with
        | Some author_p => strip (bs4.text author_p)
        | None => py "N/A"
        end in
      let abstract :=
        match bs4.find_class soup (py "p") (py "abstract") with
        | Some abstract_p => strip (bs4.text abstract_p)
        | None => py "N/A"
        end in
      let pdf_url :=
        match find_pdf_link soup with
        | Some pdf_link => Some (BASE_URL ++ bs4.get_href pdf_link)
        | None => None
        end in
      match split 47 url !! 5%nat with
      | Some year =>
          (w, Some {| title := title; authors := authors; abstract := abstract;
                      pdf_url := pdf_url; year := year |})
      | None => (w, None)
      end
  | None => (w, None)
  end.

(** Line 113. *)
Definition safe_title (title : pystr) : pystr :=
  take 50 (strip (filter (fun c => isalnum c || bool_decide (c ∈ py " -_")) title)).

(** Line 114. *)
Definition filename (paper_data : PaperRecord) : pystr :=
  PDF_FOLDER ++ py "/" ++ year paper_data ++ py "_" ++
  safe_title (title paper_data) ++ py ".pdf".

(** [os.path.exists(path)] *)
Definition exists_ (path : pystr) (w : World) : bool :=
  bool_decide (is_Some (pdfs w !! path)).

(** Lines 118-125: the fetch and the write, with the error of either
    swallowed by the [except] clause. *)
Definition fetch_pdf (web : Web) (pdf_url : pystr) (path : pystr) (w : World) : World :=
  let '(w, response) := requests_get web pdf_url w in
  match response with
  | Some response =>
      match open_wb path (requests.content response) with
      | Some written => set_pdfs (fun fs => <[path := written]> fs) w
      | None => w
      end
  | None => w
  end.

Definition download_pdf (web : Web) (paper_data : PaperRecord) (w : World) : World :=
  match pdf_url paper_data with
  | None => w
  | Some pdf_url =>
      if negb (truthy pdf_url) then w
      else if negb (exists_ (filename paper_data) w)
           then fetch_pdf web pdf_url (filename paper_data) w
           else w
  end.

(** Run by one thread alone, [with lock] takes the free lock and gives it
    back, and the write in between puts the whole line at the end of the
    file. *)
Definition append_to_csv (paper_data : PaperRecord) (w : World) : World :=
  set_csv (fun file => file ++ row_tokens paper_data) w.

Definition process_paper (web : Web) (url : pystr) (w : World) : World * option PaperRecord :=
  let '(w, paper_data) := scrape_paper_data web url w in
  match paper_data with
  | Some paper_data' =>
      (append_to_csv paper_data' (download_pdf web paper_data' w), paper_data)
  | None => (w, None)
  end.

(** *** The worker pool of [process_year]

    [executor.submit(process_paper, url)] makes one task per link and
    [max_workers=5] threads run them.  A task is at one of the points where
    the thread scheduler can switch: before each request, before the
    existence test of [download_pdf], at [with lock], and between any two
    cells it writes to the CSV file while it holds the lock.  The main
    thread takes the finished futures from [as_completed] and, for a
    future that holds a record, takes the lock before it appends the
    record to [all_papers]. *)
Inductive Task :=
| Queued (url : pystr)
    (* submitted; no worker has called process_paper yet *)
| Scraped (paper_data : PaperRecord)
    (* scrape_paper_data returned the record; download_pdf is next *)
| Fetching (paper_data : PaperRecord)
    (* in download_pdf, os.path.exists has returned False *)
| Waiting (paper_data : PaperRecord)
    (* in append_to_csv, at `with lock` *)
| Writing (paper_data : PaperRecord) (written : nat)
    (* holds the lock; [written] tokens of the line are in the file *)
| Done (result : option PaperRecord)
    (* process_paper has returned; the future holds its result *)
| Collecting (paper_data : PaperRecord)
    (* the main thread is inside `with lock` of line 159 for this future *)
| Collected.
    (* the loop body of lines 157-161 has run for this future *)

Record Pool := {
  tasks : list Task;
  world : World
}.

Definition max_workers : nat := 5.

(** A task a worker thread is busy with. *)
Definition running (t : Task) : bool :=
  match t with
  | Scraped _ | Fetching _ | Waiting _ | Writing _ _ => true
  | Queued _ | Done _ | Collecting _ | Collected => false
  end.

Definition queued (t : Task) : bool :=
  match t with Queued _ => true | _ => false end.

(** A worker is free and the work queue, which is first in first out, has
    task [i] at its front. *)
Definition can_start (i : nat) (ts : list Task) : bool :=
  bool_decide (length (filter (fun t => running t) ts) < max_workers)%nat &&
  forallb (fun t => negb (queued t)) (take i ts).

(** One step of the thread that works on task [t], or of the main thread
    when the task is done.  [None] when that thread cannot move: it waits
    for the lock or for a free worker, or there is nothing left to do. *)
Definition advance (web : Web) (free_worker : bool) (t : Task) (w : World) : option (Task * World) :=
  match t with
  | Queued url =>
      if free_worker then
        let '(w, paper_data) := scrape_paper_data web url w in
        match paper_data with
        | Some paper_data => Some (Scraped paper_data, w)
        | None => Some (Done None, w)
        end
      else None
  | Scraped paper_data =>
      match pdf_url paper_data with
      | None => Some (Waiting paper_data, w)
      | Some pdf_url =>
          if negb (truthy pdf_url) then Some (Waiting paper_data, w)
          else if negb (exists_ (filename paper_data) w)
               then Some (Fetching paper_data, w)
               else Some (Waiting paper_data, w)
      end
  | Fetching paper_data =>
      Some (Waiting paper_data,
            fetch_pdf web (default [] (pdf_url paper_data)) (filename paper_data) w)
  | Waiting paper_data =>
      if lock w then None
      else Some (Writing paper_data 0, set_lock true w)
  | Writing paper_data written =>
      match row_tokens paper_data !! written with
      | Some tok =>
          Some (Writing paper_data (S written), set_csv (fun file => file ++ [tok]) w)
      | None => Some (Done (Some paper_data), set_lock false w)
      end
  | Done (Some paper_data) =>
      if lock w then None
      else Some (Collecting paper_data, set_lock true w)
  | Done None => Some (Collected, w)
  | Collecting paper_data =>
      Some (Collected,
            set_lock false (set_all_papers (fun l => l ++ [paper_data]) w))
  | Collected => None
  end.

(** The step of task [i] in the pool. *)
Definition step (web : Web) (i : nat) (p : Pool) : option Pool :=
  match tasks p !! i with
  | Some t =>
      match advance web (can_start i (tasks p)) t (world p) with
      | Some (t', w') => Some {| tasks := <[i := t']> (tasks p); world := w' |}
      | None => None
      end
  | None => None
  end.

(** A schedule names the task that moves at each step. *)
Fixpoint run (web : Web) (schedule : list nat) (p : Pool) : option Pool :=
  match schedule with
  | [] => Some p
  | i :: schedule' =>
      match step web i p with
      | Some p' => run web schedule' p'
      | None => None
      end
  end.

Definition collected (t : Task) : bool :=
  match t with Collected => true | _ => false end.

(** What a Python function hands back to its caller. *)
Inductive Returned :=
| PyNone
| PyList (l : list PaperRecord).

(** [process_year] under one schedule of its threads.  The [with] block of
    line 154 ends when every future has been collected, so a schedule that
    stops earlier, or asks a blocked thread to move, is not a run of the
    function: the result is [None] for it.  Both ways out of the function
    (line 151 and the end of the body) return Python's [None]. *)
Definition process_year (web : Web) (year : Z) (schedule : list nat) (w : World) : option (World * Returned) :=
  let '(w, paper_links) := get_paper_links web year w in
  match paper_links with
  | [] => Some (w, PyNone)
  | _ :: _ =>
      match run web schedule {| tasks := Queued <$> paper_links; world := w |} with
      | Some p =>
          if forallb collected (tasks p) then Some (world p, PyNone) else None
      | None => None
      end
  end.

(** The loop of lines 165-166, with the schedule of each year's pool. *)
Fixpoint process_years (web : Web) (schedules : Z -> list nat) (years : list Z) (w : World) : option World :=
  match years with
  | [] => Some w
  | year :: years' =>
      match process_year web year (schedules year) w with
      | Some (w', _) => process_years web schedules years' w'
      | None => None
      end
  end.

(** Lines 169-175: [pd.DataFrame(all_papers).to_csv(CSV_FILE, index=False)]
    replaces the file by a header line and one line per collected record. *)
Definition final_save (w : World) : World :=
  match all_papers w with
  | [] => w
  | _ :: _ =>
      set_csv (fun _ => line header ++ concat (row_tokens <$> all_papers w)) w
  end.

Definition main (web : Web) (schedules : Z -> list nat) (w : World) : option World :=
  match process_years web schedules YEARS w with
  | Some w' => Some (final_save w')
  | None => None
  end.

(** The schedule that runs the tasks one after the other, each to its end,
    and collects each future as soon as it is done.  A task takes at most
    thirteen steps (scrape, test, fetch, lock, six tokens, unlock, and the
    main thread's lock and append);
    [solo] stops at the first step the task cannot take. *)
Fixpoint solo (web : Web) (fuel : nat) (i : nat) (p : Pool) : list nat * Pool :=
  match fuel with
  | O => ([], p)
  | S fuel' =>
      match step web i p with
      | Some p' => let '(sched, p'') := solo web fuel' i p' in (i :: sched, p'')
      | None => ([], p)
      end
  end.

Fixpoint sequential_from (web : Web) (order : list nat) (p : Pool) : list nat * Pool :=
  match order with
  | [] => ([], p)
  | i :: order' =>
      let '(sched, p') := solo web 13 i p in
      let '(sched', p'') := sequential_from web order' p' in
      (sched ++ sched', p'')
  end.

Definition sequential (web : Web) (year : Z) (w : World) : list nat :=
  let '(w, paper_links) := get_paper_links web year w in
  (sequential_from web (seq 0 (length paper_links))
     {| tasks := Queued <$> paper_links; world := w |}).1.

End Operations.
End scrapper.

(** ** annotation.py *)

Module annotation.

Definition LABELS : list pystr :=
  [py "Deep Learning"; py "Computer Vision"; py "Reinforcement Learning";
   py "NLP"; py "Optimization"].

(** The file [annotate_papers] reads and the file it writes: the frame
    read from the first is an argument of the model, the content of the
    second is the field [output] of a run. *)
Definition CSV_FILE : pystr := py "neurips_2020_2024_data.csv".
Definition OUTPUT_CSV_FILE : pystr := py "neurips_2020_2024_data_annotated.csv".

(** A cell of a frame that [pd.read_csv] produced: a value, by its text, or
    the missing value. *)
Inductive cell :=
| Str (s : pystr)
| NaN.

(** A row as [iterrows] yields it: the cell of each column. *)
Abbreviation Series := (gmap pystr cell).

Record DataFrame := {
  columns : list pystr;
  data : list Series
}.

(** The Gemini model: the text of its answer to the [n]-th request of the
    run, or [None] when [generate_content] or [response.text] raises. *)
Definition Service := nat -> pystr -> option pystr.

(** A cell inside an f-string. *)
Definition fmt (c : cell) : pystr :=
  match c with
  | Str s => s
  | NaN => py "nan"
  end.

(** Lines 21-26. *)
Definition prompt (title abstract : cell) : pystr :=
  py "Classify the following research paper into one of these categories: " ++
  join (py ", ") LABELS ++ py "." ++ [10] ++
  py "Title: " ++ fmt title ++ [10] ++
  py "Abstract: " ++ fmt abstract ++ [10] ++
  py "Return only the category name (e.g., 'Deep Learning'). If the paper doesn't fit any category, return 'Other'.".

(** [classify_paper], as the [n]-th request to the service. *)
Definition classify_paper (service : Service) (n : nat) (title abstract : cell) : pystr :=
  match service n (prompt title abstract) with
  | Some text =>
      let label := strip text in
      if bool_decide (label ∈ LABELS) then label else py "Other"
  | None => py "Other"
  end.

(** The frame in memory, the annotated file once it has been written, and
    the ghost list of the calls of [classify_paper], in call order. *)
Record Run := {
  df : DataFrame;
  output : option DataFrame;
  calls : list (cell * cell)
}.

(** Line 58. *)
Definition unlabeled (label : cell) : bool :=
  match label with
  | Str s => bool_decide (s = py "N/A")
  | NaN => true
  end.

Definition set_label (idx : nat) (label : pystr) (d : DataFrame) : DataFrame :=
  {| columns := columns d;
     data := alter (fun row => <[py "label" := Str label]> row) idx (data d) |}.

(** The body of the loop of lines 57-67 for one [(idx, row)]; [None] when a
    column the body reads is missing from the row and the [KeyError]
    leaves the function. *)
Definition annotate_row (service : Service) (idx : nat) (row : Series) (r : Run) : option Run :=
  match row !! py "label" with
  | None => None
  | Some label =>
      if unlabeled label then
        match row !! py "title", row !! py "abstract" with
        | Some title, Some abstract =>
            let label := classify_paper service (length (calls r)) title abstract in
            let d := set_label idx label (df r) in
            Some {| df := d; output := Some d;
                    calls := calls r ++ [(title, abstract)] |}
        | _, _ => None
        end
      else Some {| df := df r; output := Some (df r); calls := calls r |}
  end.

Fixpoint iterrows (service : Service) (idx : nat) (todo : list Series) (r : Run) : option Run :=
  match todo with
  | [] => Some r
  | row :: todo' =>
      match annotate_row service idx row r with
      | Some r' => iterrows service (S idx) todo' r'
      | None => None
      end
  end.

(** Lines 53-54. *)
Definition ensure_label (d : DataFrame) : DataFrame :=
  if bool_decide (py "label" ∈ columns d) then d
  else {| columns := columns d ++ [py "label"];
          data := (fun row => <[py "label" := Str (py "N/A")]> row) <$> data d |}.

(** [csv_file] is the frame [pd.read_csv(CSV_FILE)] gives, or [None] when
    the file does not exist.  The rows the loop sees are those of the frame
    when the loop starts. *)
Definition annotate_papers (service : Service) (csv_file : option DataFrame) (out : option DataFrame) : option Run :=
  match csv_file with
  | None => Some {| df := {| columns := []; data := [] |}; output := out; calls := [] |}
  | Some d =>
      let d := ensure_label d in
      iterrows service 0 (data d) {| df := d; output := out; calls := [] |}
  end.

Definition main (service : Service) (csv_file : option DataFrame) (out : option DataFrame) : option Run :=
  annotate_papers service csv_file out.

End annotation.

(** ** The vocabulary of the statements *)

Module scrapper_spec.
Import scrapper.

(** Each element once, at the place of its first occurrence. *)
Fixpoint first_seen (l : list pystr) : list pystr :=
  match l with
  | [] => []
  | x :: l' => x :: filter (fun y => y ≠ x) (first_seen l')
  end.

(** A string without the separator. *)
Definition free_of (sep : N) (s : pystr) : bool :=
  forallb (fun c => negb (c =? sep)) s.

(** The targets of the links that pass the test of line 49, as absolute
    URLs, in page order. *)
Definition candidates (year : Z) (links : list bs4.Tag) : list pystr :=
  (fun href => BASE_URL ++ href) <$>
  filter (fun href => is_paper_href year href) (bs4.get_href <$> links).

(** The first link of the page, in document order, whose [.string] is the
    label.  This is what [find("a", href=True, string=label)] compares: the
    only text child of the link.  A link with a second child (an icon, a
    line break) has no [.string], whatever text it shows. *)
Definition first_labelled (soup : bs4.Soup) (label : pystr) : option bs4.Tag :=
  head (filter (fun link => bs4.string_ link = Some label)
               (bs4.find_all_href soup (py "a"))).

(** The first link of the page, in document order, whose visible text is
    the label: the reading of the specification. *)
Definition first_visible (soup : bs4.Soup) (label : pystr) : option bs4.Tag :=
  head (filter (fun link => bs4.text link = label)
               (bs4.find_all_href soup (py "a"))).

(** The first link of the page whose target ends in [-Paper.pdf]. *)
Definition first_paper_pdf (soup : bs4.Soup) : option bs4.Tag :=
  head (filter (fun link => endswith (bs4.get_href link) (py "-Paper.pdf") = true)
               (bs4.find_all_href soup (py "a"))).

(** The two-stage search over the [.string] of the links: the labels in
    their order, then the suffix. *)
Definition pdf_candidate (soup : bs4.Soup) : option bs4.Tag :=
  match first_labelled soup (py "Download PDF") with
  | Some link => Some link
  | None =>
      match first_labelled soup (py "PDF") with
      | Some link => Some link
      | None =>
          match first_labelled soup (py "Paper PDF") with
          | Some link => Some link
          | None => first_paper_pdf soup
          end
      end
  end.

(** The two-stage search in the words of the specification: the first
    link whose visible text is one of the labels, in their order, then the
    suffix. *)
Definition pdf_candidate_as_specified (soup : bs4.Soup) : option bs4.Tag :=
  match first_visible soup (py "Download PDF") with
  | Some link => Some link
  | None =>
      match first_visible soup (py "PDF") with
      | Some link => Some link
      | None =>
          match first_visible soup (py "Paper PDF") with
          | Some link => Some link
          | None => first_paper_pdf soup
          end
      end
  end.

(** An absolute URL rooted at [base]: [base] itself, or [base] followed by
    a path, which starts with a slash. *)
Definition rooted_at (base url : pystr) : bool :=
  bool_decide (url = base) || startswith url (base ++ py "/").

(** The URL of a year's index page (line 37). *)
Definition index_url (year : Z) : pystr :=
  BASE_URL ++ py "/paper_files/paper/" ++ str year.

(** The tasks no worker has started yet are the last ones submitted: once
    a task is queued, all after it are. *)
Fixpoint queue_at_end (ts : list Task) : bool :=
  match ts with
  | [] => true
  | t :: ts' => (if queued t then forallb queued ts' else true) && queue_at_end ts'
  end.

(** The number of slashes of a URL. *)
Definition slashes (s : pystr) : nat := length (filter (fun c => c = 47) s).

Section Tasks.
Context `{External}.

(** What [scrape_paper_data] returns for a URL; the world it runs in only
    gains an entry in the request log. *)
Definition extract (web : Web) (url : pystr) : option PaperRecord :=
  (scrape_paper_data web url (module_init ∅ None)).2.

(** The records a task will still append to the CSV file. *)
Definition to_write (web : Web) (t : Task) : list PaperRecord :=
  match t with
  | Queued url => option_list (extract web url)
  | Scraped paper_data | Fetching paper_data | Waiting paper_data
  | Writing paper_data _ => [paper_data]
  | Done _ | Collecting _ | Collected => []
  end.

(** The records the main thread will still append to [all_papers]. *)
Definition to_collect (web : Web) (t : Task) : list PaperRecord :=
  match t with
  | Done (Some paper_data) | Collecting paper_data => [paper_data]
  | _ => to_write web t
  end.

(** The part of its line a task has in the file while it is writing. *)
Definition in_flight (t : Task) : list token :=
  match t with
  | Writing paper_data written => take written (row_tokens paper_data)
  | _ => []
  end.

(** A task for which a thread is inside a [with lock] block: its worker in
    [append_to_csv], or the main thread in the loop of [process_year]. *)
Definition holds_lock (t : Task) : bool :=
  match t with Writing _ _ | Collecting _ => true | _ => false end.

(** The invariant of a pool that started with the file [csv0], the list
    [papers0] and tasks that will produce the records [recs]: the file is
    [csv0], then whole lines of records, then the part of the line of the
    one task that is writing, and at most one thread holds the lock. *)
Definition pool_inv (web : Web) (csv0 : list token) (papers0 recs : list PaperRecord) (p : Pool) : Prop :=
  ∃ written gathered : list PaperRecord,
    csv (world p) =
      csv0 ++ concat (row_tokens <$> written) ++ concat (in_flight <$> tasks p) ∧
    written ++ concat (to_write web <$> tasks p) ≡ₚ recs ∧
    all_papers (world p) = papers0 ++ gathered ∧
    gathered ++ concat (to_collect web <$> tasks p) ≡ₚ recs ∧
    length (filter (fun t => holds_lock t) (tasks p)) =
      (if lock (world p) then 1 else 0)%nat.

(** [process_paper] has returned. *)
Definition returned (t : Task) : bool :=
  match t with Done _ | Collecting _ | Collected => true | _ => false end.

(** An upper bound on the steps a task still takes. *)
Definition steps_left (t : Task) : nat :=
  match t with
  | Queued _ => 13
  | Scraped _ => 12
  | Fetching _ => 11
  | Waiting _ => 10
  | Writing paper_data written => 3 + (length (row_tokens paper_data) - written)
  | Done _ => 2
  | Collecting _ => 1
  | Collected => 0
  end.

(** A character that line 113 keeps in a file name. *)
Definition kept (c : N) : bool := isalnum c || bool_decide (c ∈ py " -_").

(** The links [get_paper_links] returns for a year; they depend on the web
    only. *)
Definition discovered (web : Web) (year : Z) : list pystr :=
  (get_paper_links web year (module_init ∅ None)).2.

(** The records a year yields: those of its links whose scrape succeeds. *)
Definition extracted (web : Web) (year : Z) : list PaperRecord :=
  omap (extract web) (discovered web year).

(** The files that were in the folder when the pool started are all there,
    and no task is about to write one of them. *)
Definition pdfs_kept (files : gmap pystr (list N)) (p : Pool) : Prop :=
  (∀ path content, files !! path = Some content ->
                   pdfs (world p) !! path = Some content) ∧
  (∀ i paper_data, tasks p !! i = Some (Fetching paper_data) ->
                   files !! filename paper_data = None).

(** The page request a task has made: none while it is queued, the one for
    its link from then on. *)
Definition started (url : pystr) (t : Task) : list pystr :=
  if queued t then [] else [url].

(** What a task of the pool of the links is, given the records [recs] that
    the links yield: a queued task is queued for its own link, and a record
    on its way to [download_pdf] is one of [recs]; a task only fetches a PDF
    for a record that has a [pdf_url]. *)
Definition task_of (recs : list PaperRecord) (url : pystr) (t : Task) : Prop :=
  match t with
  | Queued u => u = url
  | Scraped paper_data => paper_data ∈ recs
  | Fetching paper_data => paper_data ∈ recs ∧ is_Some (pdf_url paper_data)
  | _ => True
  end.

(** The requests of a pool since it started with the log [log0]: one per
    started task, for its link, and PDF downloads of extracted records. *)
Definition requests_inv (web : Web) (links : list pystr) (log0 : list pystr) (p : Pool) : Prop :=
  Forall2 (task_of (omap (extract web) links)) links (tasks p) ∧
  ∃ asked downloads : list pystr,
    http_log (world p) = log0 ++ asked ∧
    asked ≡ₚ concat (zip_with started links (tasks p)) ++ downloads ∧
    Forall (fun u => ∃ paper_data, paper_data ∈ omap (extract web) links ∧
                                   pdf_url paper_data = Some u) downloads.

End Tasks.
End scrapper_spec.

Module annotation_spec.
Import annotation.

(** A row that has the three columns the loop reads. *)
Definition readable (row : Series) : Prop :=
  is_Some (row !! py "title") ∧ is_Some (row !! py "abstract") ∧
  is_Some (row !! py "label").

(** A row whose label is "N/A" or missing. *)
Definition needs_label (row : Series) : bool :=
  match row !! py "label" with
  | Some label => unlabeled label
  | None => false
  end.

(** The arguments [classify_paper] gets for a row. *)
Definition paper_of (row : Series) : cell * cell :=
  (default NaN (row !! py "title"), default NaN (row !! py "abstract")).

(** The rows the pass leaves, computed row by row: a row that needs a
    label gets the answer to the next request, the [k]-th of the run; any
    other row stays. *)
Fixpoint relabel (service : Service) (k : nat) (rows : list Series) : list Series :=
  match rows with
  | [] => []
  | row :: rows' =>
      if needs_label row then
        <[py "label" := Str (classify_paper service k (paper_of row).1 (paper_of row).2)]> row
        :: relabel service (S k) rows'
      else row :: relabel service k rows'
  end.

(** A frame with the columns the pass reads: every row has a title and an
    abstract, and a label when the frame has the label column. *)
Definition loadable (d : DataFrame) : Prop :=
  Forall (fun row : Series =>
            is_Some (row !! py "title") ∧ is_Some (row !! py "abstract") ∧
            (py "label" ∈ columns d -> is_Some (row !! py "label")))
         (data d).

(** The values [classify_paper] can return. *)
Definition outcomes : list pystr := LABELS ++ [py "Other"].

End annotation_spec.

(** ** A small site to run the scripts on *)

Module demo.
Import scrapper.

Definition abstract_href : pystr := py "/paper_files/paper/2020/hash/0a1b-Abstract.html".
Definition paper_pdf_href : pystr := py "/paper_files/paper/2020/file/0a1b-Paper.pdf".
Definition bare_href : pystr := py "/paper_files/paper/2020/hash/9f8e-Abstract.html".

Definition anchor (target label : pystr) : bs4.Tag :=
  {| bs4.name := py "a"; bs4.class_ := []; bs4.href := Some target;
     bs4.string_ := Some label; bs4.text := label |}.

Definition element (name : pystr) (classes : list pystr) (text : pystr) : bs4.Tag :=
  {| bs4.name := name; bs4.class_ := classes; bs4.href := None;
     bs4.string_ := Some text; bs4.text := text |}.

(** The index of 2020: a paper listed twice, its PDF under [/file/], a
    second paper and a link that leaves the listing. *)
Definition index_page : bs4.Soup :=
  [anchor abstract_href (py "Deep Nets");
   anchor paper_pdf_href (py "Paper");
   anchor abstract_href (py "Deep Nets");
   anchor bare_href (py "Sparse Nets");
   anchor (py "/about") (py "About")].

(** A paper page without an abstract; its PDF link is labelled "Paper". *)
Definition paper_page : bs4.Soup :=
  [element (py "h4") [] (py " Deep Nets ");
   element (py "p") [py "authors"] (py "A. Author, B. Author");
   anchor paper_pdf_href (py "Paper")].

(** A paper page without authors and without any PDF link. *)
Definition bare_page : bs4.Soup :=
  [element (py "h4") [] (py "Sparse Nets");
   element (py "p") [py "abstract"] (py "We prune.");
   anchor (py "/about") (py "About")].

(** A paper page of another year that no index lists.  Its download link
    shows an icon before the text "PDF", so the link has two children and
    no [.string]; the only other link is the full URL of a mirror. *)
Definition mirror_href : pystr := py "/paper_files/paper/2021/hash/7c7c-Abstract.html".
Definition mirror_pdf_href : pystr := py "https://mirror.example.org/7c7c-Paper.pdf".

Definition icon_link : bs4.Tag :=
  {| bs4.name := py "a"; bs4.class_ := [];
     bs4.href := Some (py "/paper_files/paper/2021/file/7c7c-Paper-Conference.pdf");
     bs4.string_ := None; bs4.text := py "PDF" |}.

Definition mirror_page : bs4.Soup :=
  [element (py "h4") [] (py "Mirror Nets");
   icon_link;
   anchor mirror_pdf_href (py "Mirror")].

Definition parser (text : pystr) : bs4.Soup :=
  if bool_decide (text = py "index-2020") then index_page
  else if bool_decide (text = py "paper-0a1b") then paper_page
  else if bool_decide (text = py "paper-9f8e") then bare_page
  else if bool_decide (text = py "paper-7c7c") then mirror_page
  else [].

Definition libraries : External :=
  {| BeautifulSoup := parser; unicode_isalnum := fun _ => false;
     open_wb := fun _ content => Some content |}.

Definition page (text : pystr) : option requests.Response :=
  Some {| requests.text := text; requests.content := [] |}.

Definition site : Web := fun url =>
  if bool_decide (url = BASE_URL ++ py "/paper_files/paper/2020") then page (py "index-2020")
  else if bool_decide (url = BASE_URL ++ abstract_href) then page (py "paper-0a1b")
  else if bool_decide (url = BASE_URL ++ bare_href) then page (py "paper-9f8e")
  else if bool_decide (url = BASE_URL ++ paper_pdf_href)
       then Some {| requests.text := []; requests.content := [37; 80; 68; 70] |}
  else if bool_decide (url = BASE_URL ++ mirror_href) then page (py "paper-7c7c")
  else None.

(** The state after the import on a machine that has no file yet. *)
Definition fresh : World := module_init ∅ None.

(** A row that an earlier run left in the CSV file. *)
Definition earlier : PaperRecord :=
  {| title := py "Old Nets"; authors := py "C. Author"; abstract := py "Before.";
     pdf_url := None; year := py "2019" |}.

(** The state after the import when the CSV file of an earlier run is
    there. *)
Definition rerun : World :=
  module_init ∅ (Some (line header ++ row_tokens earlier)).

(** The records of the two papers of the site. *)
Definition deep_nets : PaperRecord :=
  {| title := py "Deep Nets"; authors := py "A. Author, B. Author";
     abstract := py "N/A"; pdf_url := Some (BASE_URL ++ paper_pdf_href);
     year := py "2020" |}.

Definition sparse_nets : PaperRecord :=
  {| title := py "Sparse Nets"; authors := py "N/A"; abstract := py "We prune.";
     pdf_url := None; year := py "2020" |}.

(** A schedule of the pool of 2020 in which the two tasks take turns and the
    second gets the lock while the first still downloads. *)
Definition interleaved : list nat :=
  [0; 1; 0; 1; 1; 0; 1; 1; 1; 1; 1; 1; 1; 0; 0; 0; 0; 0; 0; 0; 0;
   1; 1; 0; 0]%nat.

(** The same schedule, but the main thread collects the first future before
    the second, although the second wrote its line first. *)
Definition crossed : list nat :=
  [0; 1; 0; 1; 1; 0; 1; 1; 1; 1; 1; 1; 1; 0; 0; 0; 0; 0; 0; 0; 0;
   0; 0; 1; 1]%nat.

(** Every year's pool run sequentially, from the state [w]. *)
Definition in_turn (w : World) (year : Z) : list nat :=
  @sequential libraries site year w.

(** The pool of 2020 when it starts from [fresh], and where the interleaved
    schedule leaves it. *)
Definition pool_2020 : Pool :=
  {| tasks := Queued <$> [BASE_URL ++ abstract_href; BASE_URL ++ bare_href];
     world := fresh |}.

Definition after_interleaved : Pool :=
  default pool_2020 (@run libraries site interleaved pool_2020).

(** The pool of 2020 after twenty-two steps of the interleaved schedule:
    both lines are written and the main thread is about to append the
    second record to [all_papers]. *)
Definition collecting : Pool :=
  default pool_2020 (@run libraries site (take 22 interleaved) pool_2020).

(** A store of three rows: one labelled, one with the "N/A" the annotator
    writes for a new column, one with an empty label cell. *)
Definition paper_row (title abstract : pystr) (label : annotation.cell) : annotation.Series :=
  list_to_map [(py "title", annotation.Str title);
               (py "abstract", annotation.Str abstract);
               (py "label", label)].

Definition labelled_row : annotation.Series :=
  paper_row (py "Deep Nets") (py "N/A") (annotation.Str (py "Deep Learning")).

Definition pending_row : annotation.Series :=
  paper_row (py "Sparse Nets") (py "We prune.") (annotation.Str (py "N/A")).

Definition empty_row : annotation.Series :=
  paper_row (py "Old Nets") (py "Before.") annotation.NaN.

Definition store : annotation.DataFrame :=
  {| annotation.columns := [py "title"; py "abstract"; py "label"];
     annotation.data := [labelled_row; pending_row; empty_row] |}.

(** A service that answers every request with "NLP" and a line end. *)
Definition gemini : annotation.Service := fun _ _ => Some (py "NLP" ++ [10]).

(** A web on which every request fails. *)
Definition offline : Web := fun _ => None.

(** The pool of 2020 after the first eight steps of the interleaved
    schedule: the second task holds the lock and has written two cells. *)
Definition mid_run : Pool :=
  default pool_2020 (@run libraries site (take 8 interleaved) pool_2020).

(** The worlds a first run leaves before and after the final save. *)
Definition after_years : World :=
  default fresh (@process_years libraries site (in_turn fresh) YEARS fresh).

Definition after_main : World :=
  default fresh (@main libraries site (in_turn fresh) fresh).

(** Where the sequential run of the pool of 2020 leaves the world. *)
Definition after_2020 : World * Returned :=
  default (fresh, PyNone) (@process_year libraries site 2020 (in_turn fresh 2020) fresh).

(** A folder that holds a file for the first paper already. *)
Definition stocked : World :=
  module_init {[ @filename libraries deep_nets := [1; 2; 3] ]} None.

Definition after_stocked : World :=
  default stocked (@main libraries site (in_turn stocked) stocked).

(** A record whose title differs from that of the first paper only in a
    character that the file name drops. *)
Definition twin : PaperRecord :=
  {| title := py "Deep Nets?"; authors := py "D. Author"; abstract := py "N/A";
     pdf_url := Some (BASE_URL ++ py "/paper_files/paper/2020/file/ffff-Paper.pdf");
     year := py "2020" |}.

(** The scraper's own output, which has no label column, and a store with
    a row that needs a label and has no title. *)
Definition raw_row (title abstract : pystr) : annotation.Series :=
  list_to_map [(py "title", annotation.Str title);
               (py "abstract", annotation.Str abstract)].

Definition raw_store : annotation.DataFrame :=
  {| annotation.columns := [py "title"; py "abstract"];
     annotation.data := [raw_row (py "Deep Nets") (py "N/A");
                         raw_row (py "Sparse Nets") (py "We prune.")] |}.

Definition torn_row : annotation.Series :=
  list_to_map [(py "abstract", annotation.Str (py "We prune."));
               (py "label", annotation.NaN)].

Definition torn_store : annotation.DataFrame :=
  {| annotation.columns := [py "abstract"; py "label"];
     annotation.data := [torn_row] |}.

(** The run of the pass over [store]. *)
Definition annotated : annotation.Run :=
  default {| annotation.df := store; annotation.output := None; annotation.calls := [] |}
          (annotation.annotate_papers gemini (Some store) None).

End demo.

(** * Properties of scrapper.py *)

Module scrapper_properties.
Import scrapper scrapper_spec.

Lemma first_seen_elem (l : list pystr) (x : pystr) : x ∈ first_seen l ↔ x ∈ l.
Proof.
  induction l as [|y l IH]; simpl; [done|].
  rewrite !elem_of_cons, list_elem_of_filter, IH.
  destruct (decide (x = y)); naive_solver.
Qed.

Lemma first_seen_NoDup (l : list pystr) : NoDup (first_seen l).
Proof.
  induction l as [|y l IH]; simpl; constructor.
  - rewrite list_elem_of_filter. naive_solver.
  - by apply NoDup_filter.
Qed.

Lemma filter_absorb (acc : list pystr) (u : pystr) (l : list pystr) :
  u ∈ acc ->
  filter (fun y => y ∉ acc) (filter (fun y => y ≠ u) l) = filter (fun y => y ∉ acc) l.
Proof.
  intros Hu. induction l as [|y l IH]; [done|].
  rewrite !filter_cons. destruct (decide (y ≠ u)) as [Hne|Heq].
  - rewrite filter_cons. destruct (decide (y ∉ acc)); by rewrite IH.
  - assert (y = u) as -> by (by destruct (decide (y = u))).
    rewrite decide_False by (intros Hn; by apply Hn). done.
Qed.

Lemma filter_snoc_excluded (acc : list pystr) (u : pystr) (l : list pystr) :
  filter (fun y => y ∉ acc ++ [u]) l =
  filter (fun y => y ∉ acc) (filter (fun y => y ≠ u) l).
Proof.
  induction l as [|y l IH]; [done|].
  rewrite !filter_cons. destruct (decide (y ≠ u)) as [Hne|Heq].
  - rewrite filter_cons. destruct (decide (y ∉ acc)) as [Hy|Hy].
    + rewrite decide_True; [by rewrite IH|].
      rewrite elem_of_app, list_elem_of_singleton. naive_solver.
    + rewrite decide_False; [done|].
      rewrite elem_of_app. naive_solver.
  - rewrite decide_False; [done|].
    assert (y = u) as -> by (by destruct (decide (y = u))).
    rewrite elem_of_app, list_elem_of_singleton. naive_solver.
Qed.

Lemma startswith_prefix (s p : pystr) :
  startswith s p = true -> ∃ rest, s = p ++ rest.
Proof.
  revert s. induction p as [|a p IH]; intros s Hs; [by exists s|].
  destruct s as [|b s]; [done|]. cbn in Hs.
  apply andb_true_iff in Hs as [Hab Hs]. apply N.eqb_eq in Hab as ->.
  destruct (IH s Hs) as [rest ->]. by exists rest.
Qed.

Lemma split_piece (sep : N) (a b : pystr) :
  free_of sep a = true -> split sep (a ++ sep :: b) = a :: split sep b.
Proof.
  induction a as [|c a IH]; intros Ha.
  - cbn. by rewrite N.eqb_refl.
  - cbn in Ha. apply andb_true_iff in Ha as [Hc Ha].
    apply negb_true_iff in Hc. cbn [app split]. by rewrite Hc, IH.
Qed.

Lemma py_String (c : ascii) (s : string) : py (String c s) = N_of_ascii c :: py s.
Proof. reflexivity. Qed.

Lemma digits_free_of_slash (d : Decimal.uint) :
  free_of 47 (py (NilEmpty.string_of_uint d)) = true.
Proof.
  induction d; cbn [NilEmpty.string_of_uint]; [done|..]; by rewrite py_String.
Qed.

(** The decimal form of an integer has no slash. *)
Lemma str_free_of_slash (n : Z) : free_of 47 (str n) = true.
Proof.
  unfold str. destruct (Z.to_int n) as [d|d]; cbn [NilZero.string_of_int].
  - destruct d; try apply digits_free_of_slash; done.
  - rewrite py_String. destruct d; try apply digits_free_of_slash; done.
Qed.

(** The sixth segment of an absolute URL under a year's listing is the
    year. *)
Lemma listing_url_year (year : Z) (href : pystr) :
  startswith href (py "/paper_files/paper/" ++ str year ++ py "/") = true ->
  split 47 (BASE_URL ++ href) !! 5%nat = Some (str year).
Proof.
  intros [rest ->]%startswith_prefix.
  pose proof (str_free_of_slash year) as Hy. generalize dependent (str year).
  intros y Hy.
  rewrite <- !app_assoc.
  change (BASE_URL ++ py "/paper_files/paper/" ++ y ++ py "/" ++ rest)
    with (py "https:" ++ 47 :: [] ++ 47 :: py "papers.nips.cc" ++ 47 ::
          py "paper_files" ++ 47 :: py "paper" ++ 47 :: y ++ 47 :: rest).
  by rewrite !split_piece.
Qed.

Section Discover.
Context `{External}.

Lemma add_paper_link_fold (year : Z) (links : list bs4.Tag) (acc : list pystr) :
  fold_left (add_paper_link year) links acc =
  acc ++ filter (fun u => u ∉ acc) (first_seen (candidates year links)).
Proof.
  revert acc. induction links as [|link links IH]; intros acc.
  - simpl. by rewrite app_nil_r.
  - cbn [fold_left]. rewrite IH. unfold add_paper_link, candidates.
    rewrite fmap_cons, filter_cons.
    destruct (is_paper_href year (bs4.get_href link)) eqn:Hq.
    + rewrite decide_True by (simpl; tauto). rewrite fmap_cons. cbn [first_seen].
      fold (candidates year links).
      case_bool_decide as Hin.
      * rewrite filter_cons, decide_False by (intros Hn; by apply Hn).
        by rewrite filter_absorb.
      * rewrite filter_cons, decide_True by done.
        rewrite <- app_assoc. cbn [app]. by rewrite filter_snoc_excluded.
    + rewrite decide_False by (simpl; tauto). done.
Qed.

Lemma not_in_nil_filter (l : list pystr) : filter (fun u => u ∉ @nil pystr) l = l.
Proof.
  induction l as [|y l IH]; [done|].
  rewrite filter_cons, decide_True by apply not_elem_of_nil. by rewrite IH.
Qed.

Lemma get_paper_links_fetched (web : Web) (year : Z) (w : World) (response : requests.Response) :
  web (BASE_URL ++ py "/paper_files/paper/" ++ str year) = Some response ->
  (get_paper_links web year w).2 =
  first_seen (candidates year
                (bs4.find_all_href (BeautifulSoup (requests.text response)) (py "a"))).
Proof.
  intros Hweb. unfold get_paper_links, requests_get. rewrite Hweb. cbn [snd].
  rewrite add_paper_link_fold. cbn [app]. apply not_in_nil_filter.
Qed.

(** Every URL [get_paper_links] returns has the year as its sixth segment,
    so [scrape_paper_data] finds the year of every page of the listing. *)
Lemma get_paper_links_year (web : Web) (year : Z) (w : World) (url : pystr) :
  url ∈ (get_paper_links web year w).2 ->
  split 47 url !! 5%nat = Some (str year).
Proof.
  destruct (web (BASE_URL ++ py "/paper_files/paper/" ++ str year)) as [response|] eqn:Hweb.
  - rewrite (get_paper_links_fetched web year w response Hweb), first_seen_elem.
    unfold candidates. intros (href & -> & Hin)%list_elem_of_fmap.
    apply list_elem_of_filter in Hin as [Hq _]. unfold is_paper_href in Hq.
    apply Is_true_true, andb_true_iff in Hq as [Hs _]. by apply listing_url_year.
  - unfold get_paper_links, requests_get. rewrite Hweb. cbn. by intros ?%elem_of_nil.
Qed.

(** C8: on an index page that was fetched, [get_paper_links] returns the
    targets that start with the year's listing prefix and contain no
    [/file/] segment, as absolute URLs, each once, in first-seen order. *)
Theorem get_paper_links_filters_and_dedups (web : Web) (year : Z) (w : World) (response : requests.Response) :
  web (BASE_URL ++ py "/paper_files/paper/" ++ str year) = Some response ->
  let links := bs4.find_all_href (BeautifulSoup (requests.text response)) (py "a") in
  let paper_links := (get_paper_links web year w).2 in
  paper_links = first_seen (candidates year links) ∧
  NoDup paper_links ∧
  ∀ url, url ∈ paper_links ↔
    ∃ link, link ∈ links ∧
      startswith (bs4.get_href link) (py "/paper_files/paper/" ++ str year ++ py "/") = true ∧
      contains (bs4.get_href link) (py "/file/") = false ∧
      url = BASE_URL ++ bs4.get_href link.
Proof.
  intros Hweb links paper_links.
  assert (paper_links = first_seen (candidates year links)) as Heq.
  { by apply get_paper_links_fetched. }
  split; [done|]. rewrite Heq. split; [apply first_seen_NoDup|].
  intros url. rewrite first_seen_elem. unfold candidates.
  rewrite list_elem_of_fmap. split.
  - intros (href & -> & Hin). apply list_elem_of_filter in Hin as [Hq Hin].
    apply list_elem_of_fmap in Hin as (link & -> & Hin).
    exists link. unfold is_paper_href in Hq.
    apply Is_true_true, andb_true_iff in Hq as [Hs Hc].
    apply negb_true_iff in Hc. done.
  - intros (link & Hin & Hs & Hc & ->). exists (bs4.get_href link).
    split; [reflexivity|]. apply list_elem_of_filter. split.
    + unfold is_paper_href. rewrite Hs, Hc. done.
    + by apply list_elem_of_fmap_2.
Qed.

End Discover.
Section Extract.
Context `{External}.

Lemma find_pdf_suffix_head (links : list bs4.Tag) :
  find_pdf_suffix links =
  head (filter (fun link => endswith (bs4.get_href link) (py "-Paper.pdf")) links).
Proof.
  induction links as [|link links IH]; [done|].
  cbn [find_pdf_suffix]. rewrite filter_cons.
  destruct (endswith (bs4.get_href link) (py "-Paper.pdf")).
  - by rewrite decide_True by (simpl; tauto).
  - by rewrite decide_False by (simpl; tauto).
Qed.

(** The record of a page that was fetched, when the URL has a sixth
    segment. *)
Lemma scrape_paper_data_fetched (web : Web) (url : pystr) (w : World) (response : requests.Response) (segment : pystr) :
  web url = Some response ->
  split 47 url !! 5%nat = Some segment ->
  let soup := BeautifulSoup (requests.text response) in
  (scrape_paper_data web url w).2 =
  Some {| title := match bs4.find soup (py "h4") with
                   | Some h4 => strip (bs4.text h4)
                   | None => py "N/A"
                   end;
          authors := match bs4.find_class soup (py "p") (py "authors") with
                     | Some author_p => strip (bs4.text author_p)
                     | None => py "N/A"
                     end;
          abstract := match bs4.find_class soup (py "p") (py "abstract") with
                      | Some abstract_p => strip (bs4.text abstract_p)
                      | None => py "N/A"
                      end;
          pdf_url := match find_pdf_link soup with
                     | Some pdf_link => Some (BASE_URL ++ bs4.get_href pdf_link)
                     | None => None
                     end;
          year := segment |}.
Proof.
  intros Hweb Hseg soup. unfold scrape_paper_data, requests_get.
  rewrite Hweb. cbv zeta. rewrite Hseg. reflexivity.
Qed.

(** A record that came back from a fetched page: the URL had a sixth
    segment. *)
Lemma scrape_paper_data_returned (web : Web) (url : pystr) (w : World) (response : requests.Response) (paper_data : PaperRecord) :
  web url = Some response ->
  (scrape_paper_data web url w).2 = Some paper_data ->
  ∃ segment, split 47 url !! 5%nat = Some segment.
Proof.
  intros Hweb Hscrape. destruct (split 47 url !! 5%nat) as [segment|] eqn:Hseg.
  - by exists segment.
  - unfold scrape_paper_data, requests_get in Hscrape.
    rewrite Hweb in Hscrape. cbv zeta in Hscrape. by rewrite Hseg in Hscrape.
Qed.

(** C4: a detail page (a URL that [get_paper_links] returns) that was
    fetched gives a record, whichever of the title, authors and abstract
    elements it lacks; a field whose element is missing is "N/A" and a
    field whose element is there is the element's stripped text. *)
Theorem scrape_paper_data_missing_fields (web : Web) (year : Z) (w0 w : World) (url : pystr) (response : requests.Response) :
  url ∈ (get_paper_links web year w0).2 ->
  web url = Some response ->
  let soup := BeautifulSoup (requests.text response) in
  ∃ paper_data,
    (scrape_paper_data web url w).2 = Some paper_data ∧
    (bs4.find soup (py "h4") = None -> title paper_data = py "N/A") ∧
    (∀ h4, bs4.find soup (py "h4") = Some h4 ->
           title paper_data = strip (bs4.text h4)) ∧
    (bs4.find_class soup (py "p") (py "authors") = None ->
     authors paper_data = py "N/A") ∧
    (∀ author_p, bs4.find_class soup (py "p") (py "authors") = Some author_p ->
                 authors paper_data = strip (bs4.text author_p)) ∧
    (bs4.find_class soup (py "p") (py "abstract") = None ->
     abstract paper_data = py "N/A") ∧
    (∀ abstract_p, bs4.find_class soup (py "p") (py "abstract") = Some abstract_p ->
                   abstract paper_data = strip (bs4.text abstract_p)).
Proof.
  intros Hurl Hweb soup. apply get_paper_links_year in Hurl as Hseg.
  eexists. split.
  - by apply (scrape_paper_data_fetched web url w response (str year)).
  - cbn [title authors abstract]. fold soup.
    repeat split; intros; by simplify_option_eq.
Qed.

Lemma find_href_string_first (soup : bs4.Soup) (label : pystr) :
  bs4.find_href_string soup (py "a") label = first_labelled soup label.
Proof.
  unfold bs4.find_href_string, first_labelled. f_equal.
  induction (bs4.find_all_href soup (py "a")) as [|link links IH]; [done|].
  rewrite !filter_cons, IH. case_bool_decide as Hs.
  - rewrite decide_True by (simpl; tauto). by rewrite decide_True.
  - rewrite decide_False by (simpl; tauto). by rewrite decide_False.
Qed.

Lemma find_pdf_link_candidate (soup : bs4.Soup) :
  find_pdf_link soup = pdf_candidate soup.
Proof.
  unfold find_pdf_link, pdf_candidate. cbn [find_pdf_label].
  rewrite !find_href_string_first, find_pdf_suffix_head.
  assert (first_paper_pdf soup =
          head (filter (fun link => endswith (bs4.get_href link) (py "-Paper.pdf"))
                       (bs4.find_all_href soup (py "a")))) as <-.
  { unfold first_paper_pdf. f_equal.
    induction (bs4.find_all_href soup (py "a")) as [|link links IH]; [done|].
    rewrite !filter_cons, IH.
    destruct (endswith (bs4.get_href link) (py "-Paper.pdf")).
    - rewrite decide_True by done. by rewrite decide_True by (simpl; tauto).
    - rewrite decide_False by done. by rewrite decide_False by (simpl; tauto). }
  repeat case_match; congruence.
Qed.

Lemma startswith_cancel (p s q : pystr) :
  startswith (p ++ s) (p ++ q) = startswith s q.
Proof. induction p as [|a p IH]; [done|]. cbn. by rewrite N.eqb_refl, IH. Qed.

(** A target appended to the base is rooted at the base exactly when it is
    empty or starts with a slash. *)
Lemma rooted_at_base (base target : pystr) :
  rooted_at base (base ++ target) =
  bool_decide (target = []) || startswith target (py "/").
Proof.
  unfold rooted_at. rewrite startswith_cancel. f_equal.
  apply bool_decide_ext. split; [|by intros ->; rewrite app_nil_r].
  intros Heq. apply (app_inv_head base). by rewrite app_nil_r.
Qed.

Lemma head_filter_ext {A} (P Q : A -> Prop) `{!∀ x, Decision (P x)} `{!∀ x, Decision (Q x)} (l : list A) :
  (∀ x, x ∈ l -> P x ↔ Q x) -> head (filter P l) = head (filter Q l).
Proof.
  intros Hext. f_equal. induction l as [|x l IH]; [done|].
  rewrite !filter_cons, IH by (intros y Hy; apply Hext; by right).
  destruct (Hext x) as [Hpq Hqp]; [by left|].
  destruct (decide (P x)), (decide (Q x)); tauto || done.
Qed.

(** C5: the PDF URL of the record of a fetched page comes from a two-stage
    search over the links of the page: the first link whose [.string] (its
    only text child) is "Download PDF", else the first whose [.string] is
    "PDF", else the first whose [.string] is "Paper PDF", else the first
    link whose target ends in "-Paper.pdf".  When there is such a link the
    URL is [BASE_URL] followed by the link's target as the page has it,
    which is rooted at the base exactly when the target is empty or starts
    with a slash.  On a page where every link's [.string] is its visible
    text, the search is the one over the visible text. *)
Theorem scrape_paper_data_pdf_url (web : Web) (url : pystr) (w : World) (response : requests.Response) (paper_data : PaperRecord) :
  web url = Some response ->
  (scrape_paper_data web url w).2 = Some paper_data ->
  let soup := BeautifulSoup (requests.text response) in
  pdf_url paper_data =
    (fun link => BASE_URL ++ bs4.get_href link) <$> pdf_candidate soup ∧
  (∀ link, pdf_candidate soup = Some link ->
     pdf_url paper_data = Some (BASE_URL ++ bs4.get_href link) ∧
     rooted_at BASE_URL (BASE_URL ++ bs4.get_href link) =
       bool_decide (bs4.get_href link = []) || startswith (bs4.get_href link) (py "/")) ∧
  ((∀ link, link ∈ bs4.find_all_href soup (py "a") ->
            bs4.string_ link = Some (bs4.text link)) ->
   pdf_candidate soup = pdf_candidate_as_specified soup).
Proof.
  intros Hweb Hscrape soup.
  destruct (scrape_paper_data_returned web url w response paper_data Hweb Hscrape)
    as [segment Hseg].
  rewrite (scrape_paper_data_fetched web url w response segment Hweb Hseg) in Hscrape.
  injection Hscrape as <-. cbn [pdf_url]. fold soup.
  rewrite find_pdf_link_candidate. split; [|split].
  - by destruct (pdf_candidate soup).
  - intros link ->. split; [done|]. apply rooted_at_base.
  - intros Htext.
    assert (∀ label, first_labelled soup label = first_visible soup label) as Hsame.
    { intros label. apply head_filter_ext. intros link Hin.
      rewrite (Htext link Hin). split; [by intros [= ->]|by intros ->]. }
    unfold pdf_candidate, pdf_candidate_as_specified. by rewrite !Hsame.
Qed.

Lemma head_filter_none {A} (P : A -> Prop) `{!∀ x, Decision (P x)} (l : list A) :
  (∀ x, x ∈ l -> ¬ P x) -> head (filter P l) = None.
Proof.
  intros Hn. induction l as [|x l IH]; [done|].
  rewrite filter_cons, decide_False by (apply Hn; left).
  apply IH. intros y Hy. apply Hn. by right.
Qed.

(** C6: when no link of a fetched page carries one of the three labels and
    none has a target ending in "-Paper.pdf", the record's [pdf_url] is
    [None], and [download_pdf] on a record without [pdf_url] returns with
    the files, the CSV and the request log as they were, whatever the web
    serves. *)
Theorem scrape_paper_data_no_pdf_link (web : Web) (url : pystr) (w : World) (response : requests.Response) (paper_data : PaperRecord) :
  web url = Some response ->
  (∀ link, link ∈ bs4.find_all_href (BeautifulSoup (requests.text response)) (py "a") ->
           bs4.string_ link ≠ Some (py "Download PDF") ∧
           bs4.string_ link ≠ Some (py "PDF") ∧
           bs4.string_ link ≠ Some (py "Paper PDF") ∧
           endswith (bs4.get_href link) (py "-Paper.pdf") = false) ->
  (scrape_paper_data web url w).2 = Some paper_data ->
  pdf_url paper_data = None ∧
  ∀ web' w', download_pdf web' paper_data w' = w'.
Proof.
  intros Hweb Hnone Hscrape.
  assert (pdf_url paper_data = None) as Hurl.
  { destruct (split 47 url !! 5%nat) as [segment|] eqn:Hseg.
    - rewrite (scrape_paper_data_fetched web url w response segment Hweb Hseg) in Hscrape.
      injection Hscrape as <-. cbn [pdf_url].
      rewrite find_pdf_link_candidate. unfold pdf_candidate, first_labelled, first_paper_pdf.
      rewrite !head_filter_none; [done|..]; intros link Hin;
        destruct (Hnone link Hin) as (? & ? & ? & Hends); try done.
      by rewrite Hends.
    - unfold scrape_paper_data, requests_get in Hscrape.
      rewrite Hweb in Hscrape. cbv zeta in Hscrape. by rewrite Hseg in Hscrape. }
  split; [done|]. intros web' w'. unfold download_pdf. by rewrite Hurl.
Qed.

Lemma exists_fetch_pdf (web : Web) (u path path' : pystr) (w : World) :
  exists_ path' w = true -> exists_ path' (fetch_pdf web u path w) = true.
Proof.
  unfold exists_, fetch_pdf, requests_get. intros Hex%bool_decide_eq_true.
  apply bool_decide_eq_true. destruct (web u) as [response|]; cbn; [|done].
  destruct (open_wb path (requests.content response)); cbn; [|done].
  destruct (decide (path = path')) as [->|Hne].
  - rewrite lookup_insert_eq. by eexists.
  - by rewrite lookup_insert_ne.
Qed.

(** C7: when the target file is there after a first [download_pdf], a
    second call with the same record changes nothing: no request is made
    and no file is written, whatever the web serves by then. *)
Theorem download_pdf_twice (web web' : Web) (paper_data : PaperRecord) (w : World) :
  exists_ (filename paper_data) (download_pdf web paper_data w) = true ->
  download_pdf web' paper_data (download_pdf web paper_data w) =
  download_pdf web paper_data w.
Proof.
  intros Hex. set (w1 := download_pdf web paper_data w) in *.
  unfold download_pdf at 1. destruct (pdf_url paper_data) as [u|]; [|done].
  destruct (truthy u); [|done]. cbn [negb]. by rewrite Hex.
Qed.

(** A download whose request is answered and whose target file can be
    opened leaves the target file in place. *)
Lemma download_pdf_creates (web : Web) (paper_data : PaperRecord) (w : World) (u : pystr) (response : requests.Response) (written : list N) :
  pdf_url paper_data = Some u ->
  truthy u = true ->
  web u = Some response ->
  open_wb (filename paper_data) (requests.content response) = Some written ->
  exists_ (filename paper_data) (download_pdf web paper_data w) = true.
Proof.
  intros Hurl Ht Hweb Hopen. unfold download_pdf. rewrite Hurl, Ht. cbn [negb].
  destruct (exists_ (filename paper_data) w) eqn:Hex; [done|]. cbn [negb].
  unfold fetch_pdf, requests_get. rewrite Hweb, Hopen. unfold exists_. cbn.
  apply bool_decide_eq_true. rewrite lookup_insert_eq. by eexists.
Qed.

End Extract.
Section Pool.
Context `{External}.

Lemma scrape_paper_data_result (web : Web) (url : pystr) (w : World) :
  (scrape_paper_data web url w).2 = extract web url.
Proof.
  unfold extract, scrape_paper_data, requests_get.
  destruct (web url); [|done]. cbv zeta.
  by destruct (split 47 url !! 5%nat).
Qed.

Lemma scrape_paper_data_world (web : Web) (url : pystr) (w : World) :
  (scrape_paper_data web url w).1 = set_http_log (fun l => l ++ [url]) w.
Proof.
  unfold scrape_paper_data, requests_get.
  destruct (web url); [|done]. cbv zeta.
  by destruct (split 47 url !! 5%nat).
Qed.

Lemma no_holder_no_flight (ts : list Task) :
  length (filter (fun t => holds_lock t) ts) = 0%nat -> concat (in_flight <$> ts) = [].
Proof.
  induction ts as [|t ts IH]; [done|].
  rewrite filter_cons. destruct t; cbn; intros Hn; try done; by apply IH.
Qed.

Lemma pool_inv_init (web : Web) (links : list pystr) (w : World) :
  lock w = false ->
  pool_inv web (csv w) (all_papers w) (omap (extract web) links)
    {| tasks := Queued <$> links; world := w |}.
Proof.
  intros Hlock. exists [], []. cbn [tasks world]. rewrite Hlock, !app_nil_r.
  assert (concat (in_flight <$> (Queued <$> links)) = []) as ->.
  { induction links; [done|]. done. }
  assert (concat (to_write web <$> (Queued <$> links)) = omap (extract web) links) as Hw.
  { induction links as [|url links IH]; [done|].
    cbn. rewrite IH. by destruct (extract web url). }
  assert (concat (to_collect web <$> (Queued <$> links)) = omap (extract web) links) as Hc.
  { clear Hw. induction links as [|url links IH]; [done|].
    cbn. rewrite IH. by destruct (extract web url). }
  rewrite Hw, Hc, app_nil_r. repeat split; try done.
  clear Hw Hc. induction links as [|url links IH]; [done|].
  rewrite fmap_cons, filter_cons. cbn. exact IH.
Qed.

Lemma fetch_pdf_frame (web : Web) (u path : pystr) (w : World) :
  csv (fetch_pdf web u path w) = csv w ∧
  all_papers (fetch_pdf web u path w) = all_papers w ∧
  lock (fetch_pdf web u path w) = lock w.
Proof.
  unfold fetch_pdf, requests_get. destruct (web u) as [response|]; [|done].
  by destruct (open_wb path (requests.content response)).
Qed.

Lemma holders_middle (l1 l2 : list Task) (t : Task) :
  length (filter (fun t => holds_lock t) (l1 ++ t :: l2)) =
  (length (filter (fun t => holds_lock t) l1) + (if holds_lock t then 1 else 0) +
   length (filter (fun t => holds_lock t) l2))%nat.
Proof.
  rewrite filter_app, filter_cons, length_app. destruct (holds_lock t).
  - rewrite decide_True by done. cbn [length]. lia.
  - rewrite decide_False by (simpl; tauto). lia.
Qed.

Lemma measure_middle {A} (f : Task -> list A) (l1 l2 : list Task) (t : Task) :
  concat (f <$> (l1 ++ t :: l2)) = concat (f <$> l1) ++ f t ++ concat (f <$> l2).
Proof. by rewrite fmap_app, fmap_cons, concat_app, concat_cons. Qed.

(** Every step keeps the invariant. *)
Lemma step_pool_inv (web : Web) (csv0 : list token) (papers0 recs : list PaperRecord) (i : nat) (p p' : Pool) :
  pool_inv web csv0 papers0 recs p ->
  step web i p = Some p' ->
  pool_inv web csv0 papers0 recs p'.
Proof.
  intros (written & gathered & Hcsv & Hw & Hap & Hc & Hl) Hstep.
  unfold step in Hstep. destruct p as [ts w]. cbn [tasks world] in *.
  destruct (ts !! i) as [t|] eqn:Hi; [|done].
  destruct (advance web (can_start i ts) t w) as [[t' w']|] eqn:Hadv; [|done].
  injection Hstep as <-. unfold pool_inv. cbn [tasks world].
  rewrite insert_take_drop by (by eapply lookup_lt_Some).
  generalize dependent (can_start i ts). intros free_worker Hadv.
  rewrite <- (take_drop_middle ts i t Hi) in Hcsv, Hw, Hc, Hl.
  generalize dependent (take i ts). generalize dependent (drop (S i) ts).
  intros l2 l1. rewrite !holders_middle, !measure_middle. intros Hcsv Hw Hc Hl.
  destruct t as [url|pd|pd|pd|pd n|[pd|]|pd|]; cbn [advance] in Hadv.
  - destruct free_worker; [|done].
    pose proof (scrape_paper_data_result web url w) as Hres.
    pose proof (scrape_paper_data_world web url w) as Hwld.
    destruct (scrape_paper_data web url w) as [w1 r]. cbn in Hres, Hwld. subst w1 r.
    destruct (extract web url) as [pd|] eqn:Hex; injection Hadv as <- <-;
      exists written, gathered; cbn in *; rewrite ?Hex in *; cbn in *; done.
  - assert (w' = w ∧ (t' = Waiting pd ∨ t' = Fetching pd)) as [-> Ht'].
    { repeat case_match; simplify_eq; auto. }
    exists written, gathered. by destruct Ht' as [-> | ->].
  - injection Hadv as <- <-. exists written, gathered.
    destruct (fetch_pdf_frame web (default [] (pdf_url pd)) (filename pd) w)
      as (-> & -> & ->). done.
  - destruct (lock w) eqn:Hlock; [done|]. injection Hadv as <- <-.
    exists written, gathered. cbn in *. repeat split; try done. lia.
  - cbn in Hl, Hcsv.
    assert (lock w = true ∧
            length (filter (fun t => holds_lock t) l1) = 0%nat ∧
            length (filter (fun t => holds_lock t) l2) = 0%nat) as (Hlock & Hl1 & Hl2).
    { destruct (lock w); [split; [done|lia] | lia]. }
    rewrite (no_holder_no_flight l1 Hl1), (no_holder_no_flight l2 Hl2) in Hcsv |- *.
    rewrite app_nil_r in Hcsv. cbn [app] in Hcsv.
    destruct (row_tokens pd !! n) as [tok|] eqn:Htok; injection Hadv as <- <-.
    + exists written, gathered. cbn [csv all_papers lock set_csv in_flight].
      rewrite Hcsv, (take_S_r _ _ _ Htok), Hl1, Hl2, Hlock, !app_nil_r, <- !app_assoc.
      cbn [app]. done.
    + exists (written ++ [pd]), gathered.
      cbn [csv all_papers lock set_lock in_flight holds_lock to_write to_collect] in *.
      rewrite take_ge in Hcsv by (by apply lookup_ge_None_1).
      rewrite Hcsv, Hl1, Hl2, fmap_app, concat_app. cbn. rewrite !app_nil_r.
      repeat split; try done.
      etrans; [|exact Hw]. solve_Permutation.
  - destruct (lock w) eqn:Hlock; [done|]. injection Hadv as <- <-.
    exists written, gathered. cbn in *. repeat split; try done. lia.
  - injection Hadv as <- <-. exists written, gathered. done.
  - cbn in Hl.
    assert (length (filter (fun t => holds_lock t) l1) = 0%nat ∧
            length (filter (fun t => holds_lock t) l2) = 0%nat) as (Hl1 & Hl2).
    { destruct (lock w); lia. }
    injection Hadv as <- <-. exists written, (gathered ++ [pd]).
    cbn [csv all_papers lock set_lock set_all_papers in_flight holds_lock
         to_write to_collect] in *.
    split; [done|]. split; [done|]. split; [by rewrite Hap, app_assoc|].
    split; [etrans; [|exact Hc]; solve_Permutation|]. rewrite Hl1, Hl2. done.
  - done.
Qed.


Lemma run_pool_inv (web : Web) (csv0 : list token) (papers0 recs : list PaperRecord) (schedule : list nat) (p p' : Pool) :
  pool_inv web csv0 papers0 recs p ->
  run web schedule p = Some p' ->
  pool_inv web csv0 papers0 recs p'.
Proof.
  revert p. induction schedule as [|i schedule IH]; intros p Hinv Hrun.
  - cbn in Hrun. by injection Hrun as <-.
  - cbn [run] in Hrun. destruct (step web i p) as [p1|] eqn:Hstep; [|done].
    eapply IH; [|exact Hrun]. by eapply step_pool_inv.
Qed.

Lemma returned_measures (web : Web) (ts : list Task) :
  Forall (fun t => returned t = true) ts ->
  concat (to_write web <$> ts) = [] ∧ concat (in_flight <$> ts) = [].
Proof.
  induction 1 as [|t ts Ht _ [IH1 IH2]]; [done|].
  rewrite !fmap_cons, !concat_cons, IH1, IH2. by destruct t.
Qed.

Lemma collected_measures (web : Web) (ts : list Task) :
  Forall (fun t => collected t = true) ts ->
  Forall (fun t => returned t = true) ts ∧ concat (to_collect web <$> ts) = [].
Proof.
  induction 1 as [|t ts Ht _ [IH1 IH2]]; [done|].
  rewrite !fmap_cons, !concat_cons, IH2. destruct t; try done.
  split; [by constructor|done].
Qed.

Lemma rows_from_line (cur cells : list pystr) (file : list token) :
  rows_from cur (line cells ++ file) = (cur ++ cells) :: rows_from [] file.
Proof.
  unfold line. revert cur. induction cells as [|c cells IH]; intros cur.
  - cbn. by rewrite app_nil_r.
  - cbn. rewrite IH. by rewrite <- app_assoc.
Qed.

Lemma rows_lines (rs : list (list pystr)) : rows (concat (line <$> rs)) = rs.
Proof.
  unfold rows. induction rs as [|r rs IH]; [done|].
  rewrite fmap_cons, concat_cons, rows_from_line, IH. done.
Qed.

Lemma lines_of_records (order : list PaperRecord) :
  concat (row_tokens <$> order) = concat (line <$> (row_cells <$> order)).
Proof. by rewrite <- list_fmap_compose. Qed.

(** C1: the tasks of a pool, scheduled in any way that lets every one of
    them return, leave the CSV file as it was followed by one whole line
    per record that was extracted, the lines in some order of the records:
    no line is cut short or mixed with the cells of another. *)
Theorem concurrent_appends_whole_rows (web : Web) (links : list pystr) (schedule : list nat) (w : World) (p : Pool) (rows0 : list (list pystr)) :
  lock w = false ->
  csv w = concat (line <$> rows0) ->
  run web schedule {| tasks := Queued <$> links; world := w |} = Some p ->
  Forall (fun t => returned t = true) (tasks p) ->
  ∃ order : list PaperRecord,
    order ≡ₚ omap (extract web) links ∧
    csv (world p) = csv w ++ concat (row_tokens <$> order) ∧
    rows (csv (world p)) = rows0 ++ (row_cells <$> order) ∧
    length (rows (csv (world p))) =
      (length rows0 + length (omap (extract web) links))%nat.
Proof.
  intros Hlock Hcsv0 Hrun Hret.
  pose proof (run_pool_inv web _ _ _ schedule _ p (pool_inv_init web links w Hlock) Hrun)
    as (written & gathered & Hcsv & Hw & _).
  destruct (returned_measures web (tasks p) Hret) as [Hnone Hflight].
  rewrite Hnone, app_nil_r in Hw. rewrite Hflight, app_nil_r in Hcsv.
  exists written. split; [done|]. split; [done|].
  assert (rows (csv (world p)) = rows0 ++ (row_cells <$> written)) as Hrows.
  { rewrite Hcsv, Hcsv0, lines_of_records, <- concat_app, <- fmap_app.
    apply rows_lines. }
  split; [done|]. rewrite Hrows, length_app, length_fmap. by rewrite Hw.
Qed.

(** A task whose thread is the only one that runs can always move, unless
    it is collected. *)
Lemma advance_progress (web : Web) (t : Task) (w : World) :
  t ≠ Collected ->
  lock w = holds_lock t ->
  ∃ t' w', advance web true t w = Some (t', w') ∧
           (steps_left t' < steps_left t)%nat ∧
           lock w' = holds_lock t' ∧ queued t' = false.
Proof.
  intros Hne Hlock. destruct t as [url|pd|pd|pd|pd n|[pd|]|pd|]; cbn [advance holds_lock] in *.
  - pose proof (scrape_paper_data_world web url w) as Hwld.
    destruct (scrape_paper_data web url w) as [w1 [pd|]]; cbn in Hwld; subst w1;
      eexists _, _; (split; [done|]); cbn; repeat split; try done; lia.
  - destruct (pdf_url pd) as [u|]; [destruct (truthy u); cbn [negb];
      [destruct (exists_ (filename pd) w); cbn [negb]|]|];
      eexists _, _; (split; [done|]); cbn; repeat split; try done; lia.
  - eexists _, _. split; [done|].
    destruct (fetch_pdf_frame web (default [] (pdf_url pd)) (filename pd) w)
      as (_ & _ & ->). cbn. repeat split; try done; lia.
  - rewrite Hlock. eexists _, _. split; [done|]. cbn. repeat split; try done; lia.
  - destruct (row_tokens pd !! n) as [tok|] eqn:Htok; eexists _, _; (split; [done|]).
    + apply lookup_lt_Some in Htok. cbn [steps_left holds_lock queued lock set_csv].
      repeat split; try done. lia.
    + cbn. repeat split; try done; lia.
  - rewrite Hlock. eexists _, _. split; [done|]. cbn. repeat split; try done; lia.
  - eexists _, _. split; [done|]. cbn. repeat split; try done; lia.
  - eexists _, _. split; [done|]. cbn. repeat split; try done; lia.
  - done.
Qed.

Lemma advance_not_queued (web : Web) (free_worker : bool) (t : Task) (w : World) :
  queued t = false -> advance web free_worker t w = advance web true t w.
Proof. by destruct t. Qed.

Lemma solo_finishes (web : Web) (fuel i : nat) (p : Pool) (t : Task) :
  tasks p !! i = Some t ->
  (steps_left t <= fuel)%nat ->
  lock (world p) = holds_lock t ->
  (queued t = true -> can_start i (tasks p) = true) ->
  run web (solo web fuel i p).1 p = Some (solo web fuel i p).2 ∧
  tasks (solo web fuel i p).2 = <[i := Collected]> (tasks p) ∧
  lock (world (solo web fuel i p).2) = false.
Proof.
  revert p t. induction fuel as [|fuel IH]; intros p t Hi Hfuel Hlock Hstart.
  - destruct t; cbn in Hfuel; try lia. cbn.
    split; [done|]. split; [by rewrite list_insert_id|done].
  - destruct (collected t) eqn:Hcol.
    + assert (t = Collected) as -> by (by destruct t).
      cbn [solo]. unfold step. rewrite Hi. cbn.
      split; [done|]. split; [by rewrite list_insert_id|done].
    + assert (t ≠ Collected) as Hne by (by intros ->).
      destruct (advance_progress web t (world p) Hne Hlock)
        as (t' & w' & Hadv & Hlt & Hlock' & Hq).
      assert (step web i p = Some {| tasks := <[i := t']> (tasks p); world := w' |}) as Hstep.
      { unfold step. rewrite Hi.
        destruct (queued t) eqn:Hqt.
        - by rewrite (Hstart eq_refl), Hadv.
        - by rewrite (advance_not_queued web _ t (world p) Hqt), Hadv. }
      cbn [solo]. rewrite Hstep.
      specialize (IH {| tasks := <[i := t']> (tasks p); world := w' |} t').
      destruct (solo web fuel i {| tasks := <[i := t']> (tasks p); world := w' |})
        as [sched p''] eqn:Hsolo.
      cbn [fst snd run]. rewrite Hstep.
      destruct IH as (Hrun & Htasks & Hlk).
      * cbn. apply list_lookup_insert_eq. by eapply lookup_lt_Some.
      * lia.
      * done.
      * rewrite Hq. done.
      * cbn in *. split; [done|]. split; [|done].
        by rewrite Htasks, list_insert_insert_eq.
Qed.

Lemma forallb_True_replicate (n : nat) :
  forallb collected (replicate n Collected) = true.
Proof. induction n; [done|]. done. Qed.

Lemma run_app (web : Web) (s1 s2 : list nat) (p : Pool) :
  run web (s1 ++ s2) p =
  match run web s1 p with Some p' => run web s2 p' | None => None end.
Proof.
  revert p. induction s1 as [|i s1 IH]; intros p; [done|].
  cbn. destruct (step web i p); [apply IH|done].
Qed.

Lemma can_start_sequential (k : nat) (urls : list pystr) :
  can_start k (replicate k Collected ++ (Queued <$> urls)) = true.
Proof.
  unfold can_start. apply andb_true_iff. split.
  - apply bool_decide_eq_true.
    assert (filter (fun t => running t) (replicate k Collected ++ (Queued <$> urls)) = []) as ->.
    { rewrite filter_app.
      assert (filter (fun t => running t) (replicate k Collected) = []) as ->.
      { induction k; [done|]. by rewrite replicate_S, filter_cons. }
      induction urls; [done|]. by rewrite fmap_cons, filter_cons. }
    cbn. unfold max_workers. lia.
  - rewrite take_app_length' by (by rewrite length_replicate).
    induction k; [done|]. done.
Qed.

Lemma sequential_from_finishes (web : Web) (urls : list pystr) (k : nat) (p : Pool) :
  tasks p = replicate k Collected ++ (Queued <$> urls) ->
  lock (world p) = false ->
  run web (sequential_from web (seq k (length urls)) p).1 p =
    Some (sequential_from web (seq k (length urls)) p).2 ∧
  tasks (sequential_from web (seq k (length urls)) p).2 =
    replicate (k + length urls) Collected.
Proof.
  revert k p. induction urls as [|url urls IH]; intros k p Htasks Hlock.
  - cbn. rewrite Htasks, Nat.add_0_r. by rewrite app_nil_r.
  - cbn [length seq sequential_from].
    destruct (solo_finishes web 13 k p (Queued url)) as (Hrun & Ht & Hl).
    { rewrite Htasks. apply list_lookup_middle. by rewrite length_replicate. }
    { cbn. lia. }
    { done. }
    { intros _. rewrite Htasks. apply (can_start_sequential k (url :: urls)). }
    destruct (solo web 13 k p) as [sched p'] eqn:Hsolo. cbn [fst snd] in *.
    specialize (IH (S k) p').
    destruct (sequential_from web (seq (S k) (length urls)) p') as [sched' p''] eqn:Hseq.
    cbn [fst snd] in *. rewrite run_app, Hrun.
    destruct IH as [Hrun' Ht'].
    + rewrite Ht, Htasks. rewrite fmap_cons.
      rewrite insert_app_r_alt by (by rewrite length_replicate).
      rewrite length_replicate, Nat.sub_diag. cbn.
      by rewrite app_comm_cons, replicate_cons_app, <- app_assoc.
    + done.
    + split; [done|]. rewrite Ht'. f_equal. lia.
Qed.

Lemma get_paper_links_world (web : Web) (year : Z) (w : World) :
  (get_paper_links web year w).1 =
  set_http_log (fun l => l ++ [BASE_URL ++ py "/paper_files/paper/" ++ str year]) w.
Proof.
  unfold get_paper_links, requests_get.
  by destruct (web (BASE_URL ++ py "/paper_files/paper/" ++ str year)).
Qed.

Lemma get_paper_links_result (web : Web) (year : Z) (w w' : World) :
  (get_paper_links web year w).2 = (get_paper_links web year w').2.
Proof.
  unfold get_paper_links, requests_get.
  by destruct (web (BASE_URL ++ py "/paper_files/paper/" ++ str year)).
Qed.

(** The sequential schedule is a run of [process_year]. *)
Lemma process_year_sequential (web : Web) (year : Z) (w : World) :
  lock w = false ->
  ∃ w', process_year web year (sequential web year w) w = Some (w', PyNone).
Proof.
  intros Hlock. unfold process_year, sequential.
  pose proof (get_paper_links_world web year w) as Hwld.
  destruct (get_paper_links web year w) as [w1 paper_links]. cbn in Hwld.
  destruct paper_links as [|url urls]; [by eexists|].
  destruct (sequential_from_finishes web (url :: urls) 0
              {| tasks := Queued <$> url :: urls; world := w1 |}) as [Hrun Ht].
  { done. } { by subst w1. }
  rewrite Hrun, Ht, forallb_True_replicate. by eexists.
Qed.

Lemma omap_length_le {A B} (f : A -> option B) (l : list A) :
  (length (omap f l) <= length l)%nat.
Proof.
  induction l as [|x l IH]; [done|]. cbn. destruct (f x); cbn; lia.
Qed.

(** C2, as the code has it: [process_year] returns no value.  Under every
    schedule that lets its pool finish (the sequential one does) it returns
    Python's [None] and has appended to [all_papers] the records that were
    extracted, at most one per discovered link, in some order; when no link
    was discovered it returns at once, with nothing changed but the request
    log. *)
Theorem process_year_returns_none (web : Web) (year : Z) (w : World) :
  lock w = false ->
  (∃ w', process_year web year (sequential web year w) w = Some (w', PyNone)) ∧
  ∀ schedule w' r,
    process_year web year schedule w = Some (w', r) ->
    r = PyNone ∧
    (∃ order : list PaperRecord,
       order ≡ₚ omap (extract web) (get_paper_links web year w).2 ∧
       all_papers w' = all_papers w ++ order ∧
       (length order <= length (get_paper_links web year w).2)%nat) ∧
    ((get_paper_links web year w).2 = [] ->
     w' = (get_paper_links web year w).1 ∧
     csv w' = csv w ∧ pdfs w' = pdfs w ∧ all_papers w' = all_papers w).
Proof.
  intros Hlock. split; [by apply process_year_sequential|].
  intros schedule w' r. unfold process_year.
  pose proof (get_paper_links_world web year w) as Hwld.
  destruct (get_paper_links web year w) as [w1 paper_links]. cbn [fst snd] in *.
  destruct paper_links as [|url urls].
  - intros [= <- <-]. split; [done|]. split.
    + exists []. rewrite app_nil_r. by subst w1.
    + intros _. by subst w1.
  - destruct (run web schedule {| tasks := Queued <$> url :: urls; world := w1 |})
      as [p|] eqn:Hrun; [|done].
    destruct (forallb collected (tasks p)) eqn:Hall; [|done].
    intros [= <- <-]. split; [done|]. split; [|done].
    assert (lock w1 = false) as Hlock1 by (by subst w1).
    pose proof (run_pool_inv web _ _ _ schedule _ p
                  (pool_inv_init web (url :: urls) w1 Hlock1) Hrun)
      as (written & gathered & _ & _ & Hap & Hc & _).
    assert (Forall (fun t => collected t = true) (tasks p)) as Hcol.
    { apply Is_true_true, forallb_True in Hall.
      eapply Forall_impl; [exact Hall|]. intros t Ht. by apply Is_true_true. }
    destruct (collected_measures web (tasks p) Hcol) as [_ Hnone].
    rewrite Hnone, app_nil_r in Hc.
    exists gathered. split; [done|]. split.
    + rewrite Hap. by subst w1.
    + rewrite Hc. apply omap_length_le.
Qed.

End Pool.
(** ** The theorems on the small site *)

#[local] Existing Instance demo.libraries.

Lemma get_paper_links_filters_and_dedups_witness :
  (get_paper_links demo.site 2020 demo.fresh).2 =
    first_seen (candidates 2020
                  (bs4.find_all_href demo.index_page (py "a"))) ∧
  NoDup (get_paper_links demo.site 2020 demo.fresh).2.
Proof.
  destruct (get_paper_links_filters_and_dedups demo.site 2020
              demo.fresh {| requests.text := py "index-2020"; requests.content := [] |})
    as (Heq & Hnd & _).
  - vm_compute. reflexivity.
  - split; [exact Heq|exact Hnd].
Defined.

Lemma scrape_paper_data_missing_fields_witness :
  ∃ paper_data,
    (scrape_paper_data demo.site (BASE_URL ++ demo.bare_href) demo.fresh).2 =
      Some paper_data ∧
    title paper_data = py "Sparse Nets" ∧
    authors paper_data = py "N/A" ∧
    abstract paper_data = py "We prune.".
Proof.
  destruct (scrape_paper_data_missing_fields demo.site 2020 demo.fresh demo.fresh
              (BASE_URL ++ demo.bare_href)
              {| requests.text := py "paper-9f8e"; requests.content := [] |})
    as (paper_data & Hs & _ & Ht & Ha & _ & _ & Hb).
  - apply (bool_decide_unpack _). vm_compute. exact I.
  - vm_compute. reflexivity.
  - exists paper_data. split; [exact Hs|]. split; [|split].
    + apply (Ht (demo.element (py "h4") [] (py "Sparse Nets"))). vm_compute. reflexivity.
    + apply Ha. vm_compute. reflexivity.
    + apply (Hb (demo.element (py "p") [py "abstract"] (py "We prune."))).
      vm_compute. reflexivity.
Defined.

Lemma scrape_paper_data_pdf_url_witness :
  pdf_url demo.deep_nets = Some (BASE_URL ++ demo.paper_pdf_href) ∧
  rooted_at BASE_URL (BASE_URL ++ demo.paper_pdf_href) = true.
Proof.
  destruct (scrape_paper_data_pdf_url demo.site (BASE_URL ++ demo.abstract_href)
              demo.fresh {| requests.text := py "paper-0a1b"; requests.content := [] |}
              demo.deep_nets) as (_ & Hroot & _).
  - vm_compute. reflexivity.
  - vm_compute. reflexivity.
  - destruct (Hroot (demo.anchor demo.paper_pdf_href (py "Paper"))) as [Hurl Hrooted].
    + vm_compute. reflexivity.
    + split; [exact Hurl|]. vm_compute. reflexivity.
Defined.

(** C5 as it is worded fails on the page of [demo.mirror_href]: the first
    link whose visible text is a label is [demo.icon_link], but the record
    does not get its target; it gets the target of the link to the mirror,
    which is a full URL, so that the [pdf_url] is not rooted at the
    base. *)
Lemma scrape_paper_data_pdf_url_as_worded :
  ∃ paper_data,
    (scrape_paper_data demo.site (BASE_URL ++ demo.mirror_href) demo.fresh).2 =
      Some paper_data ∧
    pdf_candidate_as_specified (BeautifulSoup (py "paper-7c7c")) = Some demo.icon_link ∧
    pdf_url paper_data ≠ Some (BASE_URL ++ bs4.get_href demo.icon_link) ∧
    pdf_url paper_data = Some (BASE_URL ++ demo.mirror_pdf_href) ∧
    rooted_at BASE_URL (BASE_URL ++ demo.mirror_pdf_href) = false.
Proof.
  eexists. split; [vm_compute; reflexivity|].
  split; [vm_compute; reflexivity|].
  split; [vm_compute; discriminate|].
  split; vm_compute; reflexivity.
Qed.

Lemma scrape_paper_data_no_pdf_link_witness :
  pdf_url demo.sparse_nets = None ∧
  download_pdf demo.site demo.sparse_nets demo.fresh = demo.fresh.
Proof.
  destruct (scrape_paper_data_no_pdf_link demo.site
              (BASE_URL ++ demo.bare_href) demo.fresh
              {| requests.text := py "paper-9f8e"; requests.content := [] |}
              demo.sparse_nets) as [Hnone Hnoop].
  - vm_compute. reflexivity.
  - intros link Hin. vm_compute in Hin.
    apply list_elem_of_singleton in Hin. subst link.
    vm_compute. repeat split; discriminate.
  - vm_compute. reflexivity.
  - split; [exact Hnone|apply Hnoop].
Defined.

Lemma download_pdf_twice_witness :
  let w1 := download_pdf demo.site demo.deep_nets demo.fresh in
  http_log w1 = [BASE_URL ++ demo.paper_pdf_href] ∧
  download_pdf demo.site demo.deep_nets w1 = w1.
Proof.
  split.
  - vm_compute. reflexivity.
  - apply (download_pdf_twice demo.site demo.site demo.deep_nets demo.fresh).
    vm_compute. reflexivity.
Defined.

Lemma concurrent_appends_whole_rows_witness :
  ∃ order : list PaperRecord,
    order ≡ₚ [demo.deep_nets; demo.sparse_nets] ∧
    rows (csv (world demo.after_interleaved)) = header :: (row_cells <$> order).
Proof.
  destruct (concurrent_appends_whole_rows demo.site
              [BASE_URL ++ demo.abstract_href; BASE_URL ++ demo.bare_href]
              demo.interleaved demo.fresh demo.after_interleaved [header])
    as (order & Hperm & _ & Hrows & _).
  - reflexivity.
  - reflexivity.
  - vm_compute. reflexivity.
  - vm_compute. repeat constructor.
  - exists order. split; [|exact Hrows].
    etrans; [exact Hperm|]. vm_compute. reflexivity.
Defined.

Lemma process_year_returns_none_witness :
  ∃ w', process_year demo.site 2020 (demo.in_turn demo.fresh 2020) demo.fresh =
        Some (w', PyNone).
Proof.
  apply (process_year_returns_none demo.site 2020 demo.fresh).
  reflexivity.
Defined.

(** C2, as the specification has it, fails: 2021 has no index page on the
    small site, so no link is discovered, and [process_year] returns
    Python's [None], not the empty list. *)
Lemma process_year_no_links_returns_none :
  (get_paper_links demo.site 2021 demo.fresh).2 = [] ∧
  snd <$> process_year demo.site 2021 [] demo.fresh = Some PyNone ∧
  snd <$> process_year demo.site 2021 [] demo.fresh ≠ Some (PyList []).
Proof.
  split; [|split].
  - vm_compute. reflexivity.
  - vm_compute. reflexivity.
  - vm_compute. discriminate.
Qed.

(** On a first run whose futures are collected in the order of their
    appends, the final save writes the lines that are there already. *)
Example final_save_first_run :
  (fun w => rows (csv w)) <$>
    main demo.site (demo.in_turn demo.fresh) demo.fresh =
  (fun w => rows (csv w)) <$>
    process_years demo.site (demo.in_turn demo.fresh) YEARS demo.fresh.
Proof. vm_compute. reflexivity. Qed.

(** When the futures are collected in another order than the lines were
    appended, the final save reorders the lines. *)
Example final_save_reorders :
  (fun w => rows (csv w)) <$>
    process_years demo.site (fun _ => demo.crossed) [2020%Z] demo.fresh =
    Some [header; row_cells demo.sparse_nets; row_cells demo.deep_nets] ∧
  (fun w => rows (csv (final_save w))) <$>
    process_years demo.site (fun _ => demo.crossed) [2020%Z] demo.fresh =
    Some [header; row_cells demo.deep_nets; row_cells demo.sparse_nets].
Proof. split; vm_compute; reflexivity. Qed.

(** C10 fails on a second run: the CSV file holds the row of an earlier
    run, the loop appends this run's two records after it, and the final
    save writes the file anew from [all_papers], without the earlier row. *)
Theorem final_save_drops_earlier_rows :
  (fun w => rows (csv w)) <$>
    process_years demo.site (demo.in_turn demo.rerun) YEARS demo.rerun =
    Some [header; row_cells demo.earlier;
          row_cells demo.deep_nets; row_cells demo.sparse_nets] ∧
  (fun w => rows (csv w)) <$>
    main demo.site (demo.in_turn demo.rerun) demo.rerun =
    Some [header; row_cells demo.deep_nets; row_cells demo.sparse_nets].
Proof. split; vm_compute; reflexivity. Qed.

End scrapper_properties.

(** * Properties of annotation.py *)

Module annotation_properties.
Import annotation annotation_spec.

Section Classify.
Variable service : Service.

Lemma strip_label (label : pystr) : label ∈ LABELS -> strip label = label.
Proof.
  unfold LABELS. rewrite !elem_of_cons.
  intros [-> | [-> | [-> | [-> | [-> | Hnil]]]]]; try reflexivity.
  by apply elem_of_nil in Hnil.
Qed.

(** C9, as the code has it: the answer of the service is stripped of the
    white space around it before it is compared with the labels.  When the
    call raises, or the stripped answer is not one of the labels, the
    result is "Other"; when the stripped answer is a label, the result is
    that label; an answer that is a label already is returned as it is. *)
Theorem classify_paper_fallback (n : nat) (title abstract : cell) :
  (service n (prompt title abstract) = None ->
   classify_paper service n title abstract = py "Other") ∧
  (∀ text, service n (prompt title abstract) = Some text ->
           strip text ∉ LABELS ->
           classify_paper service n title abstract = py "Other") ∧
  (∀ text, service n (prompt title abstract) = Some text ->
           strip text ∈ LABELS ->
           classify_paper service n title abstract = strip text) ∧
  (∀ text, service n (prompt title abstract) = Some text ->
           text ∈ LABELS ->
           classify_paper service n title abstract = text).
Proof.
  unfold classify_paper. repeat split.
  - by intros ->.
  - intros text -> Hout. by rewrite bool_decide_eq_false_2.
  - intros text -> Hin. by rewrite bool_decide_eq_true_2.
  - intros text -> Hin. rewrite (strip_label text Hin).
    by rewrite bool_decide_eq_true_2.
Qed.

Lemma set_label_other (idx j : nat) (label : pystr) (d : DataFrame) :
  idx ≠ j -> data (set_label idx label d) !! j = data d !! j.
Proof. intros Hne. unfold set_label. cbn. by apply list_lookup_alter_ne. Qed.

(** The loop, from row [idx] on: [todo] are the rows still to come, and the
    frame holds them unchanged at their places. *)
Lemma iterrows_spec (todo : list Series) (idx : nat) (r : Run) :
  Forall readable todo ->
  (∀ j row, todo !! j = Some row -> data (df r) !! (idx + j)%nat = Some row) ->
  ∃ r', iterrows service idx todo r = Some r' ∧
    calls r' = calls r ++ (paper_of <$> filter (fun row => needs_label row) todo) ∧
    length (data (df r')) = length (data (df r)) ∧
    (∀ j, (j < idx)%nat -> data (df r') !! j = data (df r) !! j) ∧
    (∀ j row, todo !! j = Some row -> needs_label row = false ->
              data (df r') !! (idx + j)%nat = Some row) ∧
    (∀ j row, todo !! j = Some row -> needs_label row = true ->
              ∃ label, data (df r') !! (idx + j)%nat =
                       Some (<[py "label" := Str label]> row)).
Proof.
  revert idx r. induction todo as [|row todo IH]; intros idx r Hwf Hrows.
  - exists r. cbn. rewrite app_nil_r. repeat split; try done.
  - apply Forall_cons in Hwf as [([title Ht] & [abstract Ha] & [label Hl]) Hwf].
    pose proof (Hrows 0%nat row eq_refl) as Hrow. rewrite Nat.add_0_r in Hrow.
    cbn [iterrows]. unfold annotate_row. rewrite Hl, Ht, Ha.
    destruct (unlabeled label) eqn:Hun.
    + set (lbl := classify_paper service (length (calls r)) title abstract).
      set (r1 := {| df := set_label idx lbl (df r);
                    output := Some (set_label idx lbl (df r));
                    calls := calls r ++ [(title, abstract)] |}).
      destruct (IH (S idx) r1 Hwf) as (r' & Hrun & Hcalls & Hlen & Hbefore & Hkeep & Hnew).
      { intros j row' Hj. cbn [r1 df]. rewrite set_label_other by lia.
        rewrite <- (Hrows (S j) row' Hj). f_equal. lia. }
      exists r'. split; [exact Hrun|].
      assert (needs_label row = true) as Hneed by (unfold needs_label; by rewrite Hl).
      split; [|split; [|split; [|split]]].
      * rewrite Hcalls, filter_cons, decide_True by (by rewrite Hneed).
        cbn [r1 calls]. rewrite fmap_cons, <- app_assoc. unfold paper_of.
        by rewrite Ht, Ha.
      * rewrite Hlen. cbn [r1 df set_label data]. apply length_alter.
      * intros j Hj. rewrite Hbefore by lia. cbn [r1 df].
        apply set_label_other. lia.
      * intros [|j] row' Hj Hno.
        -- cbn in Hj. injection Hj as <-. congruence.
        -- cbn in Hj. rewrite <- (Hkeep j row' Hj Hno). f_equal. lia.
      * intros [|j] row' Hj Hyes.
        -- cbn in Hj. injection Hj as <-. exists lbl.
           rewrite Nat.add_0_r, Hbefore by lia. cbn [r1 df set_label data].
           by rewrite list_lookup_alter_eq, Hrow.
        -- cbn in Hj. destruct (Hnew j row' Hj Hyes) as [label' Hlabel].
           exists label'. rewrite <- Hlabel. f_equal. lia.
    + set (r1 := {| df := df r; output := Some (df r); calls := calls r |}).
      destruct (IH (S idx) r1 Hwf) as (r' & Hrun & Hcalls & Hlen & Hbefore & Hkeep & Hnew).
      { intros j row' Hj. cbn [r1 df].
        rewrite <- (Hrows (S j) row' Hj). f_equal. lia. }
      exists r'. split; [exact Hrun|].
      assert (needs_label row = false) as Hneed by (unfold needs_label; by rewrite Hl).
      split; [|split; [|split; [|split]]].
      * rewrite Hcalls, filter_cons, decide_False by (rewrite Hneed; simpl; tauto). done.
      * exact Hlen.
      * intros j Hj. by rewrite Hbefore by lia.
      * intros [|j] row' Hj Hno.
        -- cbn in Hj. injection Hj as <-.
           rewrite Nat.add_0_r, Hbefore by lia. exact Hrow.
        -- cbn in Hj. rewrite <- (Hkeep j row' Hj Hno). f_equal. lia.
      * intros [|j] row' Hj Hyes.
        -- cbn in Hj. injection Hj as <-. congruence.
        -- cbn in Hj. destruct (Hnew j row' Hj Hyes) as [label' Hlabel].
           exists label'. rewrite <- Hlabel. f_equal. lia.
Qed.

(** C3: on a store that has the label column, [annotate_papers] calls
    [classify_paper] for the rows whose label is "N/A" or missing, in row
    order, and for no other row; a row with another label is in the result
    as it was, and a row it classified differs in its label only. *)
Theorem annotate_papers_resumes (d : DataFrame) (out : option DataFrame) :
  py "label" ∈ columns d ->
  Forall readable (data d) ->
  ∃ r, annotate_papers service (Some d) out = Some r ∧
    calls r = paper_of <$> filter (fun row => needs_label row) (data d) ∧
    length (data (df r)) = length (data d) ∧
    (∀ idx row, data d !! idx = Some row -> needs_label row = false ->
                data (df r) !! idx = Some row) ∧
    (∀ idx row, data d !! idx = Some row -> needs_label row = true ->
                ∃ label, data (df r) !! idx = Some (<[py "label" := Str label]> row)).
Proof.
  intros Hcol Hwf. unfold annotate_papers, ensure_label.
  rewrite bool_decide_eq_true_2 by done.
  destruct (iterrows_spec (data d) 0 {| df := d; output := out; calls := [] |} Hwf)
    as (r & Hrun & Hcalls & Hlen & _ & Hkeep & Hnew).
  { intros j row Hj. exact Hj. }
  exists r. split; [exact Hrun|]. split; [exact Hcalls|]. split; [exact Hlen|].
  split; [exact Hkeep|exact Hnew].
Qed.

End Classify.
(** C9, as the specification has it, fails: the answer "NLP" followed by a
    line end is not one of the labels, and [classify_paper] returns "NLP"
    for it, not "Other". *)
Lemma classify_paper_strips_answer :
  ((py "NLP" ++ [10]) ∉ LABELS) ∧
  classify_paper demo.gemini 0 (Str (py "Sparse Nets")) (Str (py "We prune.")) = py "NLP" ∧
  classify_paper demo.gemini 0 (Str (py "Sparse Nets")) (Str (py "We prune.")) ≠ py "Other".
Proof.
  split; [|split].
  - apply (bool_decide_unpack _). vm_compute. exact I.
  - vm_compute. reflexivity.
  - vm_compute. discriminate.
Qed.

Lemma classify_paper_fallback_witness :
  classify_paper demo.gemini 0 (Str (py "Sparse Nets")) (Str (py "We prune.")) = py "NLP".
Proof.
  destruct (classify_paper_fallback demo.gemini 0 (Str (py "Sparse Nets")) (Str (py "We prune.")))
    as (_ & _ & Hin & _).
  rewrite (Hin (py "NLP" ++ [10])).
  - vm_compute. reflexivity.
  - reflexivity.
  - apply (bool_decide_unpack _). vm_compute. exact I.
Defined.

Lemma annotate_papers_resumes_witness :
  ∃ r, annotate_papers demo.gemini (Some demo.store) None = Some r ∧
    calls r = [(Str (py "Sparse Nets"), Str (py "We prune."));
               (Str (py "Old Nets"), Str (py "Before."))] ∧
    data (df r) !! 0%nat = Some demo.labelled_row.
Proof.
  destruct (annotate_papers_resumes demo.gemini demo.store None)
    as (r & Hrun & Hcalls & _ & Hkeep & _).
  - apply (bool_decide_unpack _). vm_compute. exact I.
  - repeat constructor; vm_compute; eexists; reflexivity.
  - exists r. split; [exact Hrun|]. split.
    + rewrite Hcalls. vm_compute. reflexivity.
    + apply Hkeep; vm_compute; reflexivity.
Defined.

End annotation_properties.

(** * Further properties of scrapper.py *)

Module scrapper_extra.
Import scrapper scrapper_spec scrapper_properties.

Lemma split_length (sep : N) (s : pystr) :
  length (split sep s) = S (length (filter (fun c => c = sep) s)).
Proof.
  induction s as [|c s IH]; [done|].
  cbn [split]. rewrite filter_cons. destruct (N.eqb_spec c sep) as [->|Hne].
  - rewrite decide_True by done. cbn [length]. by rewrite IH.
  - rewrite decide_False by done.
    destruct (split sep s) as [|piece pieces]; [done|]. exact IH.
Qed.

(** The pieces of a split do not contain the separator. *)
Lemma split_pieces_free (sep : N) (s : pystr) :
  Forall (fun piece => free_of sep piece = true) (split sep s).
Proof.
  induction s as [|c s IH]; [by repeat constructor|].
  cbn [split]. destruct (N.eqb_spec c sep) as [->|Hne].
  - by constructor.
  - apply N.eqb_neq in Hne. destruct (split sep s) as [|piece pieces].
    + constructor; [|done]. unfold free_of. cbn. by rewrite Hne.
    + apply Forall_cons in IH as [Hp Hps]. constructor; [|done].
      unfold free_of in *. cbn. by rewrite Hne, Hp.
Qed.

Section Extract.
Context `{External}.

(** X1: [scrape_paper_data] returns [None] in two cases only: the page
    could not be fetched, or the URL has fewer than five slashes, so that
    [url.split("/")[5]] is out of range. *)
Theorem scrape_paper_data_none_iff (web : Web) (url : pystr) (w : World) :
  (scrape_paper_data web url w).2 = None ↔
  web url = None ∨ (slashes url < 5)%nat.
Proof.
  assert (split 47 url !! 5%nat = None ↔ (slashes url < 5)%nat) as Hsplit.
  { rewrite lookup_ge_None, split_length. unfold slashes. lia. }
  destruct (web url) as [response|] eqn:Hweb.
  - destruct (split 47 url !! 5%nat) as [segment|] eqn:Hseg.
    + rewrite (scrape_paper_data_fetched web url w response segment Hweb Hseg).
      split; [done|]. intros [?|Hlt]; [done|]. by apply Hsplit in Hlt.
    + unfold scrape_paper_data, requests_get. rewrite Hweb. cbv zeta.
      rewrite Hseg. split; [|done]. intros _. right. by apply Hsplit.
  - unfold scrape_paper_data, requests_get. rewrite Hweb. split; [|done].
    intros _. by left.
Qed.

(** X2: the record scraped from a URL that [get_paper_links] returned for
    a year carries that year, in decimal, as its [year]. *)
Theorem discovered_record_year (web : Web) (year : Z) (w0 w : World) (url : pystr) (paper_data : PaperRecord) :
  url ∈ (get_paper_links web year w0).2 ->
  (scrape_paper_data web url w).2 = Some paper_data ->
  scrapper.year paper_data = str year.
Proof.
  intros Hurl Hscrape. apply get_paper_links_year in Hurl as Hseg.
  destruct (web url) as [response|] eqn:Hweb.
  - rewrite (scrape_paper_data_fetched web url w response (str year) Hweb Hseg) in Hscrape.
    by injection Hscrape as <-.
  - unfold scrape_paper_data, requests_get in Hscrape. by rewrite Hweb in Hscrape.
Qed.

Lemma lstrip_Forall (P : N -> Prop) (s : pystr) : Forall P s -> Forall P (lstrip s).
Proof.
  induction 1 as [|c s Hc Hs IH]; [done|].
  cbn. destruct (isspace c); [done|by constructor].
Qed.

Lemma strip_Forall (P : N -> Prop) (s : pystr) : Forall P s -> Forall P (strip s).
Proof.
  intros Hs. unfold strip, rstrip.
  apply Forall_rev, lstrip_Forall, Forall_rev, lstrip_Forall, Hs.
Qed.

Lemma free_of_Forall (sep : N) (s : pystr) :
  Forall (fun c => c ≠ sep) s -> free_of sep s = true.
Proof.
  induction 1 as [|c s Hc Hs IH]; [done|].
  unfold free_of in *. cbn. apply N.eqb_neq in Hc. by rewrite Hc, IH.
Qed.

Lemma kept_no_slash_no_dot (c : N) : kept c = true -> c ≠ 47 ∧ c ≠ 46.
Proof. intros Hc. split; intros ->; by vm_compute in Hc. Qed.

(** X3: the sanitized title has at most fifty characters, each of them
    alphanumeric, a space, a hyphen or an underscore; so it has no slash
    and no dot, whatever the title is. *)
Theorem safe_title_is_safe (title : pystr) :
  (length (safe_title title) <= 50)%nat ∧
  Forall (fun c => kept c = true) (safe_title title) ∧
  free_of 47 (safe_title title) = true ∧
  free_of 46 (safe_title title) = true.
Proof.
  assert (Forall (fun c => kept c = true) (safe_title title)) as Hkept.
  { unfold safe_title. apply Forall_take, strip_Forall, Forall_forall.
    intros c [Hc _]%list_elem_of_filter. by apply Is_true_true. }
  split; [unfold safe_title; rewrite length_take; lia|].
  split; [done|].
  split; apply free_of_Forall; (eapply Forall_impl; [exact Hkept|]);
    intros c Hc; by apply kept_no_slash_no_dot.
Qed.

Lemma free_of_app (sep : N) (a b : pystr) :
  free_of sep (a ++ b) = free_of sep a && free_of sep b.
Proof. unfold free_of. apply forallb_app. Qed.

(** X4: the file of a record that [scrape_paper_data] returned lies
    directly in [PDF_FOLDER]: after the folder and one slash its name has
    no further slash, whatever the page and the URL were. *)
Theorem scraped_filename_in_folder (web : Web) (url : pystr) (w : World) (paper_data : PaperRecord) :
  (scrape_paper_data web url w).2 = Some paper_data ->
  ∃ base, filename paper_data = PDF_FOLDER ++ py "/" ++ base ∧
          free_of 47 base = true.
Proof.
  intros Hscrape. eexists. split; [reflexivity|].
  assert (free_of 47 (scrapper.year paper_data) = true) as Hyear.
  { destruct (web url) as [response|] eqn:Hweb.
    - destruct (scrape_paper_data_returned web url w response paper_data Hweb Hscrape)
        as [segment Hseg].
      rewrite (scrape_paper_data_fetched web url w response segment Hweb Hseg) in Hscrape.
      injection Hscrape as <-. cbn [scrapper.year].
      pose proof (split_pieces_free 47 url) as Hfree.
      rewrite Forall_lookup in Hfree. by apply (Hfree 5%nat).
    - unfold scrape_paper_data, requests_get in Hscrape. by rewrite Hweb in Hscrape. }
  destruct (safe_title_is_safe (title paper_data)) as (_ & _ & Hsafe & _).
  rewrite !free_of_app, Hyear, Hsafe. reflexivity.
Qed.

Lemma world_eq (w1 w2 : World) :
  pdfs w1 = pdfs w2 -> csv w1 = csv w2 -> all_papers w1 = all_papers w2 ->
  lock w1 = lock w2 -> http_log w1 = http_log w2 -> w1 = w2.
Proof. destruct w1, w2. cbn. by intros -> -> -> -> ->. Qed.

(** X5: [download_pdf] touches nothing but the PDF folder and the request
    log.  It makes at most one request, and only for the record's own
    [pdf_url]; every file that was in the folder is still there with its
    content, and no path other than the record's own file name changes;
    when the fetch fails the folder is as it was. *)
Theorem download_pdf_keeps_files (web : Web) (paper_data : PaperRecord) (w : World) :
  let w' := download_pdf web paper_data w in
  csv w' = csv w ∧ all_papers w' = all_papers w ∧ lock w' = lock w ∧
  (http_log w' = http_log w ∨
   ∃ u, pdf_url paper_data = Some u ∧ http_log w' = http_log w ++ [u]) ∧
  (∀ path content, pdfs w !! path = Some content -> pdfs w' !! path = Some content) ∧
  (∀ path, path ≠ filename paper_data -> pdfs w' !! path = pdfs w !! path) ∧
  (∀ u, pdf_url paper_data = Some u -> web u = None -> pdfs w' = pdfs w).
Proof.
  unfold download_pdf. destruct (pdf_url paper_data) as [u|] eqn:Hurl.
  2: { cbn. repeat split; auto. }
  destruct (truthy u); cbn [negb].
  2: { cbn. repeat split; auto. }
  destruct (exists_ (filename paper_data) w) eqn:Hex; cbn [negb].
  { cbn. repeat split; auto. }
  unfold fetch_pdf, requests_get.
  apply bool_decide_eq_false in Hex.
  destruct (web u) as [response|] eqn:Hweb; cbn.
  - destruct (open_wb (filename paper_data) (requests.content response)); cbn.
    + repeat split; eauto.
      * intros path content Hpath. rewrite lookup_insert_ne; [done|].
        intros <-. apply Hex. by eexists.
      * intros path Hne. by rewrite lookup_insert_ne.
      * intros u' [= <-] Hnone. congruence.
    + repeat split; eauto.
  - repeat split; eauto.
Qed.

(** X6: two records with the same year whose titles sanitize to the same
    name share their file: once the download of the first has gone
    through (its request is answered and its file can be opened for
    writing), [download_pdf] for the second makes no request and writes
    nothing, so the second paper's PDF is never fetched. *)
Theorem download_pdf_collision (web web' : Web) (first second : PaperRecord) (w : World) (u : pystr) (response : requests.Response) (written : list N) :
  scrapper.year first = scrapper.year second ->
  safe_title (title first) = safe_title (title second) ->
  pdf_url first = Some u ->
  truthy u = true ->
  web u = Some response ->
  open_wb (filename first) (requests.content response) = Some written ->
  download_pdf web' second (download_pdf web first w) = download_pdf web first w.
Proof.
  intros Hyear Htitle Hurl Hu Hweb Hopen.
  assert (filename second = filename first) as Hname.
  { unfold filename. by rewrite Hyear, Htitle. }
  pose proof (download_pdf_creates web first w u response written Hurl Hu Hweb Hopen) as Hex.
  unfold download_pdf at 1. destruct (pdf_url second) as [u'|]; [|done].
  destruct (truthy u'); [|done]. cbn [negb]. by rewrite Hname, Hex.
Qed.


Lemma scrape_paper_data_eq (web : Web) (url : pystr) (w : World) :
  scrape_paper_data web url w =
  (set_http_log (fun l => l ++ [url]) w, extract web url).
Proof.
  rewrite <- (scrape_paper_data_world web url w), <- (scrape_paper_data_result web url w).
  by destruct (scrape_paper_data web url w).
Qed.


Lemma step_single (web : Web) (t : Task) (w : World) :
  step web 0 {| tasks := [t]; world := w |} =
  match advance web (can_start 0 [t]) t w with
  | Some (t', w') => Some {| tasks := [t']; world := w' |}
  | None => None
  end.
Proof. reflexivity. Qed.

Lemma solo_S (web : Web) (fuel i : nat) (p p' : Pool) :
  step web i p = Some p' ->
  (solo web (S fuel) i p).2 = (solo web fuel i p').2.
Proof.
  intros Hstep. cbn [solo]. rewrite Hstep. by destruct (solo web fuel i p').
Qed.

(** From the point where the task waits for the free lock, the steps of a
    task that runs alone write its line, give the lock back and collect
    the record. *)
Lemma solo_from_waiting (web : Web) (fuel : nat) (paper_data : PaperRecord) (w : World) :
  lock w = false ->
  (solo web (10 + fuel) 0 {| tasks := [Waiting paper_data]; world := w |}).2 =
  {| tasks := [Collected];
     world := set_all_papers (fun l => l ++ [paper_data]) (append_to_csv paper_data w) |}.
Proof.
  intros Hlock.
  cbn. rewrite Hlock. cbn.
  assert (∀ p, (solo web fuel 0 {| tasks := [Collected]; world := p |}).2 =
               {| tasks := [Collected]; world := p |}) as Hend.
  { intros p. by destruct fuel. }
  match goal with
  | |- context [solo web fuel 0 {| tasks := [Collected]; world := ?x |}] =>
      pose proof (Hend x) as Hp;
      destruct (solo web fuel 0 {| tasks := [Collected]; world := x |}) as [sched p']
  end.
  cbn in Hp. subst p'.
  cbn. f_equal. unfold append_to_csv, set_all_papers, set_csv. cbn.
  by rewrite Hlock, <- !app_assoc.
Qed.

(** X8: a pool with a single task, run to its end, does what the
    sequential [process_paper] does and then what the loop body of
    [process_year] does with the result: the final world is that of
    [process_paper], with the record appended to [all_papers] when there is
    one. *)
Theorem pool_of_one_is_process_paper (web : Web) (url : pystr) (w : World) :
  lock w = false ->
  let p := {| tasks := [Queued url]; world := w |} in
  run web (solo web 13 0 p).1 p =
  Some {| tasks := [Collected];
          world := match (process_paper web url w).2 with
                   | Some paper_data =>
                       set_all_papers (fun l => l ++ [paper_data])
                         (process_paper web url w).1
                   | None => (process_paper web url w).1
                   end |}.
Proof.
  intros Hlock p.
  destruct (solo_finishes web 13 0 p (Queued url)) as (-> & _ & _);
    [done|cbn; lia|done|done|].
  f_equal. unfold p, process_paper. rewrite scrape_paper_data_eq.
  set (w1 := set_http_log (fun l => l ++ [url]) w).
  assert (lock w1 = false) as Hlock1 by done.
  destruct (extract web url) as [paper_data|] eqn:Hextract; cbn [fst snd].
  2: { erewrite (solo_S web 12).
       2: { rewrite step_single. change (can_start 0 [Queued url]) with true.
            cbn [advance]. rewrite scrape_paper_data_eq, Hextract. reflexivity. }
       erewrite (solo_S web 11).
       2: { rewrite step_single. cbn [advance]. reflexivity. }
       reflexivity. }
  erewrite (solo_S web 12).
  2: { rewrite step_single. change (can_start 0 [Queued url]) with true.
       cbn [advance]. rewrite scrape_paper_data_eq, Hextract. reflexivity. }
  fold w1. unfold download_pdf.
  destruct (pdf_url paper_data) as [u|] eqn:Hurl.
  - destruct (truthy u) eqn:Hu; cbn [negb].
    + destruct (exists_ (filename paper_data) w1) eqn:Hex; cbn [negb].
      * erewrite (solo_S web 11).
        2: { rewrite step_single. cbn [advance]. rewrite Hurl, Hu, Hex. reflexivity. }
        apply (solo_from_waiting web 1 paper_data w1 Hlock1).
      * erewrite (solo_S web 11).
        2: { rewrite step_single. cbn [advance]. rewrite Hurl, Hu, Hex. reflexivity. }
        erewrite (solo_S web 10).
        2: { rewrite step_single. cbn [advance]. rewrite Hurl. reflexivity. }
        apply (solo_from_waiting web 0 paper_data).
        by destruct (fetch_pdf_frame web u (filename paper_data) w1) as (_ & _ & ->).
    + erewrite (solo_S web 11).
      2: { rewrite step_single. cbn [advance]. rewrite Hurl, Hu. reflexivity. }
      apply (solo_from_waiting web 1 paper_data w1 Hlock1).
  - erewrite (solo_S web 11).
    2: { rewrite step_single. cbn [advance]. rewrite Hurl. reflexivity. }
    apply (solo_from_waiting web 1 paper_data w1 Hlock1).
Qed.

End Extract.
Section Pool.
Context `{External}.

Lemma holder_counted (ts : list Task) (i : nat) (t : Task) :
  ts !! i = Some t -> holds_lock t = true ->
  (1 <= length (filter (fun t => holds_lock t) ts))%nat.
Proof.
  intros Hi Ht.
  assert (t ∈ filter (fun t => holds_lock t) ts) as Hin.
  { apply list_elem_of_filter. split; [by rewrite Ht|].
    by eapply list_elem_of_lookup_2. }
  destruct (filter (fun t => holds_lock t) ts); [by apply elem_of_nil in Hin|].
  cbn. lia.
Qed.

Lemma one_holder (ts : list Task) (i j : nat) (t t' : Task) :
  (length (filter (fun t => holds_lock t) ts) <= 1)%nat ->
  ts !! i = Some t -> holds_lock t = true ->
  ts !! j = Some t' -> holds_lock t' = true ->
  i = j.
Proof.
  revert i j. induction ts as [|t0 ts IH]; intros i j Hlen Hi Ht Hj Ht'; [done|].
  rewrite filter_cons in Hlen.
  destruct i as [|i], j as [|j]; cbn in Hi, Hj; simplify_eq; [done|..].
  - rewrite decide_True in Hlen by (by rewrite Ht). cbn in Hlen.
    pose proof (holder_counted ts j t' Hj Ht'). lia.
  - rewrite decide_True in Hlen by (by rewrite Ht'). cbn in Hlen.
    pose proof (holder_counted ts i t Hi Ht). lia.
  - f_equal. apply (IH i j); try done.
    destruct (decide (holds_lock t0)); cbn in Hlen; lia.
Qed.

Lemma some_holder (ts : list Task) :
  (1 <= length (filter (fun t => holds_lock t) ts))%nat ->
  ∃ i t, ts !! i = Some t ∧ holds_lock t = true.
Proof.
  intros Hlen.
  destruct (filter (fun t => holds_lock t) ts) as [|t l] eqn:Hf; [cbn in Hlen; lia|].
  assert (t ∈ filter (fun t => holds_lock t) ts) as Hin by (rewrite Hf; left).
  apply list_elem_of_filter in Hin as [Ht Hin].
  apply list_elem_of_lookup_1 in Hin as [i Hi].
  exists i, t. split; [done|]. by destruct (holds_lock t).
Qed.

(** X9: in every state a pool can reach, at most one thread is inside a
    [with lock] block, be it a worker in [append_to_csv] (lines 130-133)
    or the main thread in the loop of [process_year] (lines 159-160): no
    two tasks are being written at once, none is being written while the
    main thread appends to [all_papers], and the lock is taken exactly
    when some thread is inside such a block. *)
Theorem pool_mutual_exclusion (web : Web) (links : list pystr) (schedule : list nat) (w : World) (p : Pool) :
  lock w = false ->
  run web schedule {| tasks := Queued <$> links; world := w |} = Some p ->
  (∀ i j t t',
     tasks p !! i = Some t -> holds_lock t = true ->
     tasks p !! j = Some t' -> holds_lock t' = true ->
     i = j) ∧
  (∀ i j paper_data written paper_data',
     tasks p !! i = Some (Writing paper_data written) ->
     tasks p !! j ≠ Some (Collecting paper_data')) ∧
  (lock (world p) = true ↔
   ∃ i t, tasks p !! i = Some t ∧ holds_lock t = true).
Proof.
  intros Hlock Hrun.
  pose proof (run_pool_inv web _ _ _ schedule _ p (pool_inv_init web links w Hlock) Hrun)
    as (_ & _ & _ & _ & _ & _ & Hl).
  assert (length (filter (fun t => holds_lock t) (tasks p)) <= 1)%nat as Hle.
  { rewrite Hl. destruct (lock (world p)); lia. }
  split; [|split].
  - intros i j t t' Hi Ht Hj Ht'. by eapply one_holder.
  - intros i j pd n pd' Hi Hj.
    pose proof (one_holder _ _ _ _ _ Hle Hi eq_refl Hj eq_refl) as <-. congruence.
  - split.
    + intros Ht. apply some_holder. rewrite Hl, Ht. lia.
    + intros (i & t & Hi & Ht). pose proof (holder_counted _ _ _ Hi Ht) as Hc.
      rewrite Hl in Hc. destruct (lock (world p)); [done|lia].
Qed.

Lemma holder_flight (ts : list Task) :
  length (filter (fun t => holds_lock t) ts) = 1%nat ->
  ∃ i,
    (∃ paper_data written,
       ts !! i = Some (Writing paper_data written) ∧
       concat (in_flight <$> ts) = take written (row_tokens paper_data)) ∨
    (∃ paper_data,
       ts !! i = Some (Collecting paper_data) ∧ concat (in_flight <$> ts) = []).
Proof.
  induction ts as [|t ts IH]; [done|].
  rewrite filter_cons, fmap_cons, concat_cons.
  destruct (holds_lock t) eqn:Ht.
  - rewrite decide_True by done. cbn [length]. intros [= Hlen].
    rewrite (no_holder_no_flight ts Hlen), app_nil_r.
    destruct t as [| | | |pd n| |pd|]; try done; exists 0%nat.
    + left. by exists pd, n.
    + right. by exists pd.
  - rewrite decide_False by (simpl; tauto). intros Hlen.
    destruct (IH Hlen) as (i & [(pd & n & Hi & Hflight) | (pd & Hi & Hflight)]);
      exists (S i); [left; exists pd, n | right; exists pd];
      (split; [done|]); rewrite Hflight; by destruct t.
Qed.

(** X10: in every state a pool can reach, the CSV file is what it was at
    the start, then whole lines of records that were extracted (each at
    most as often as it was extracted), then the beginning of the line of
    the task that is writing under the lock, if one is.  So whenever the
    lock is free, and whenever it is the main thread that holds it, the
    file holds whole lines only. *)
Theorem pool_file_whole_lines (web : Web) (links : list pystr) (schedule : list nat) (w : World) (p : Pool) :
  lock w = false ->
  run web schedule {| tasks := Queued <$> links; world := w |} = Some p ->
  ∃ (written : list PaperRecord) (unfinished : list token),
    csv (world p) = csv w ++ concat (row_tokens <$> written) ++ unfinished ∧
    (∃ others, written ++ others ≡ₚ omap (extract web) links) ∧
    (lock (world p) = false -> unfinished = []) ∧
    (lock (world p) = true ->
     ∃ i,
       (∃ paper_data n, tasks p !! i = Some (Writing paper_data n) ∧
                        unfinished = take n (row_tokens paper_data)) ∨
       (∃ paper_data, tasks p !! i = Some (Collecting paper_data) ∧
                      unfinished = [])).
Proof.
  intros Hlock Hrun.
  pose proof (run_pool_inv web _ _ _ schedule _ p (pool_inv_init web links w Hlock) Hrun)
    as (written & _ & Hcsv & Hw & _ & _ & Hl).
  exists written, (concat (in_flight <$> tasks p)).
  split; [done|]. split; [by eexists|]. split.
  - intros Hfree. rewrite Hfree in Hl. by apply no_holder_no_flight.
  - intros Htaken. rewrite Htaken in Hl. by apply holder_flight.
Qed.

Lemma step_pdfs_kept (web : Web) (files : gmap pystr (list N)) (i : nat) (p p' : Pool) :
  pdfs_kept files p -> step web i p = Some p' -> pdfs_kept files p'.
Proof.
  intros [Hkeep Hfetch] Hstep. unfold step in Hstep. destruct p as [ts w].
  cbn [tasks world] in *.
  destruct (ts !! i) as [t|] eqn:Hi; [|done].
  destruct (advance web (can_start i ts) t w) as [[t' w']|] eqn:Hadv; [|done].
  injection Hstep as <-. unfold pdfs_kept. cbn [tasks world].
  assert (∀ j pd, <[i:=t']> ts !! j = Some (Fetching pd) ->
                  (j = i ∧ t' = Fetching pd) ∨ ts !! j = Some (Fetching pd)) as Hins.
  { intros j pd Hj. destruct (decide (j = i)) as [->|Hne].
    - left. rewrite list_lookup_insert_eq in Hj by (by eapply lookup_lt_Some).
      by injection Hj as ->.
    - right. by rewrite list_lookup_insert_ne in Hj. }
  destruct t as [url|pd|pd|pd|pd n|[pd|]|pd|]; cbn [advance] in Hadv.
  - destruct (can_start i ts); [|done]. rewrite scrape_paper_data_eq in Hadv.
    destruct (extract web url); injection Hadv as <- <-; (split; [done|]);
      intros j pd' Hj; destruct (Hins j pd' Hj) as [[_ ?]|?]; eauto; done.
  - destruct (pdf_url pd) as [u|];
      [destruct (truthy u); cbn [negb] in Hadv;
       [destruct (exists_ (filename pd) w) eqn:Hex; cbn [negb] in Hadv|]|];
      injection Hadv as <- <-; (split; [done|]);
      intros j pd' Hj; destruct (Hins j pd' Hj) as [[_ Heq]|?]; eauto; try done.
    injection Heq as <-. apply bool_decide_eq_false in Hex.
    destruct (files !! filename pd) as [content|] eqn:Hf; [|done].
    apply Hkeep in Hf. exfalso. apply Hex. by eexists.
  - injection Hadv as <- <-. split.
    + intros path content Hpath. unfold fetch_pdf, requests_get.
      destruct (web (default [] (pdf_url pd))) as [response|]; cbn; [|by apply Hkeep].
      destruct (open_wb (filename pd) (requests.content response)); cbn;
        [|by apply Hkeep].
      rewrite lookup_insert_ne; [by apply Hkeep|].
      intros <-. rewrite (Hfetch i pd Hi) in Hpath. done.
    + intros j pd' Hj. destruct (Hins j pd' Hj) as [[_ ?]|?]; eauto; done.
  - destruct (lock w); [done|]. injection Hadv as <- <-. split; [done|].
    intros j pd' Hj. destruct (Hins j pd' Hj) as [[_ ?]|?]; eauto; done.
  - destruct (row_tokens pd !! n); injection Hadv as <- <-; (split; [done|]);
      intros j pd' Hj; destruct (Hins j pd' Hj) as [[_ ?]|?]; eauto; done.
  - destruct (lock w); [done|]. injection Hadv as <- <-. split; [done|].
    intros j pd' Hj. destruct (Hins j pd' Hj) as [[_ ?]|?]; eauto; done.
  - injection Hadv as <- <-. split; [done|].
    intros j pd' Hj. destruct (Hins j pd' Hj) as [[_ ?]|?]; eauto; done.
  - injection Hadv as <- <-. split; [done|].
    intros j pd' Hj. destruct (Hins j pd' Hj) as [[_ ?]|?]; eauto; done.
  - done.
Qed.

Lemma run_pdfs_kept (web : Web) (files : gmap pystr (list N)) (schedule : list nat) (p p' : Pool) :
  pdfs_kept files p -> run web schedule p = Some p' -> pdfs_kept files p'.
Proof.
  revert p. induction schedule as [|i schedule IH]; intros p Hinv Hrun.
  - cbn in Hrun. by injection Hrun as <-.
  - cbn [run] in Hrun. destruct (step web i p) as [p1|] eqn:Hstep; [|done].
    eapply IH; [|exact Hrun]. by eapply step_pdfs_kept.
Qed.

Lemma process_year_keeps_pdfs (web : Web) (year : Z) (schedule : list nat) (w w' : World) (r : Returned) :
  process_year web year schedule w = Some (w', r) ->
  ∀ path content, pdfs w !! path = Some content -> pdfs w' !! path = Some content.
Proof.
  unfold process_year. pose proof (get_paper_links_world web year w) as Hwld.
  destruct (get_paper_links web year w) as [w1 paper_links]. cbn [fst] in Hwld.
  destruct paper_links as [|url urls].
  - intros [= <- <-]. by subst w1.
  - destruct (run web schedule {| tasks := Queued <$> url :: urls; world := w1 |})
      as [p|] eqn:Hrun; [|done].
    destruct (forallb collected (tasks p)); [|done]. intros [= <- <-].
    assert (pdfs_kept (pdfs w) {| tasks := Queued <$> url :: urls; world := w1 |}) as Hinit.
    { split; [by subst w1|]. intros i pd Hi. cbn [tasks] in Hi.
      apply list_lookup_fmap_Some in Hi as (? & ? & ?). done. }
    by destruct (run_pdfs_kept web _ schedule _ p Hinit Hrun) as [Hkeep _].
Qed.

(** X12: under every schedule, a PDF that was in the folder when [main]
    started is there, with the same content, when [main] returns: the run
    never overwrites or removes a file of an earlier run. *)
Theorem main_keeps_pdfs (web : Web) (schedules : Z -> list nat) (w w' : World) :
  main web schedules w = Some w' ->
  ∀ path content, pdfs w !! path = Some content -> pdfs w' !! path = Some content.
Proof.
  unfold main.
  assert (∀ years w0 w1, process_years web schedules years w0 = Some w1 ->
            ∀ path content, pdfs w0 !! path = Some content ->
                            pdfs w1 !! path = Some content) as Hyears.
  { induction years as [|year years IH]; intros w0 w1 Hrun path content Hpath.
    - cbn in Hrun. by injection Hrun as <-.
    - cbn [process_years] in Hrun.
      destruct (process_year web year (schedules year) w0) as [[w2 r]|] eqn:Hyear; [|done].
      eapply IH; [exact Hrun|]. by eapply process_year_keeps_pdfs. }
  destruct (process_years web schedules YEARS w) as [w1|] eqn:Hrun; [|done].
  intros [= <-] path content Hpath.
  assert (pdfs (final_save w1) = pdfs w1) as -> by (unfold final_save; by destruct (all_papers w1)).
  by eapply Hyears.
Qed.

Lemma collected_release (ts : list Task) :
  Forall (fun t => collected t = true) ts ->
  length (filter (fun t => holds_lock t) ts) = 0%nat.
Proof.
  induction 1 as [|t ts Ht _ IH]; [done|].
  rewrite filter_cons. destruct t; try done.
Qed.

Lemma discovered_eq (web : Web) (year : Z) (w : World) :
  (get_paper_links web year w).2 = discovered web year.
Proof. apply get_paper_links_result. Qed.

(** What one year does to the file, the list and the lock. *)
Lemma process_year_effect (web : Web) (year : Z) (schedule : list nat) (w w' : World) (r : Returned) :
  lock w = false ->
  process_year web year schedule w = Some (w', r) ->
  lock w' = false ∧
  ∃ appended gathered : list PaperRecord,
    appended ≡ₚ extracted web year ∧ gathered ≡ₚ extracted web year ∧
    csv w' = csv w ++ concat (row_tokens <$> appended) ∧
    all_papers w' = all_papers w ++ gathered.
Proof.
  intros Hlock. unfold process_year, extracted.
  rewrite <- (discovered_eq web year w).
  pose proof (get_paper_links_world web year w) as Hwld.
  destruct (get_paper_links web year w) as [w1 paper_links]. cbn [fst snd] in *.
  assert (lock w1 = false) as Hlock1 by (by subst w1).
  destruct paper_links as [|url urls].
  - intros [= <- <-]. split; [done|]. exists [], []. cbn.
    rewrite !app_nil_r. by subst w1.
  - destruct (run web schedule {| tasks := Queued <$> url :: urls; world := w1 |})
      as [p|] eqn:Hrun; [|done].
    destruct (forallb collected (tasks p)) eqn:Hall; [|done]. intros [= <- <-].
    pose proof (run_pool_inv web _ _ _ schedule _ p
                  (pool_inv_init web (url :: urls) w1 Hlock1) Hrun)
      as (written & gathered & Hcsv & Hw & Hap & Hc & Hl).
    assert (Forall (fun t => collected t = true) (tasks p)) as Hcol.
    { apply Is_true_true, forallb_True in Hall.
      eapply Forall_impl; [exact Hall|]. intros t Ht. by apply Is_true_true. }
    destruct (collected_measures web (tasks p) Hcol) as [Hret Hnone].
    destruct (returned_measures web (tasks p) Hret) as [Hnow Hflight].
    rewrite Hnone, app_nil_r in Hc. rewrite Hnow, app_nil_r in Hw.
    rewrite Hflight, app_nil_r in Hcsv. rewrite (collected_release _ Hcol) in Hl.
    split; [by destruct (lock (world p))|].
    exists written, gathered. rewrite Hcsv, Hap. by subst w1.
Qed.

Lemma process_years_effect (web : Web) (schedules : Z -> list nat) (years : list Z) (w w' : World) :
  lock w = false ->
  process_years web schedules years w = Some w' ->
  lock w' = false ∧
  ∃ appended gathered : list (list PaperRecord),
    Forall2 (fun year recs => recs ≡ₚ extracted web year) years appended ∧
    Forall2 (fun year recs => recs ≡ₚ extracted web year) years gathered ∧
    csv w' = csv w ++ concat (row_tokens <$> concat appended) ∧
    all_papers w' = all_papers w ++ concat gathered.
Proof.
  revert w. induction years as [|year years IH]; intros w Hlock Hrun.
  - cbn in Hrun. injection Hrun as <-. split; [done|]. exists [], [].
    cbn. rewrite !app_nil_r. repeat split; constructor.
  - cbn [process_years] in Hrun.
    destruct (process_year web year (schedules year) w) as [[w1 r]|] eqn:Hyear; [|done].
    destruct (process_year_effect web year _ w w1 r Hlock Hyear)
      as (Hlock1 & a & g & Ha & Hg & Hcsv1 & Hap1).
    destruct (IH w1 Hlock1 Hrun) as (Hlock' & As & Gs & HAs & HGs & Hcsv & Hap).
    split; [done|]. exists (a :: As), (g :: Gs).
    split; [by constructor|]. split; [by constructor|].
    rewrite Hcsv, Hap, Hcsv1, Hap1. cbn [concat].
    by rewrite fmap_app, concat_app, <- !app_assoc.
Qed.

Lemma concat_years (web : Web) (years : list Z) (per_year : list (list PaperRecord)) :
  Forall2 (fun year recs => recs ≡ₚ extracted web year) years per_year ->
  concat per_year ≡ₚ concat (extracted web <$> years).
Proof.
  induction 1 as [|year recs years per_year Hrecs _ IH]; [done|].
  cbn. by rewrite Hrecs, IH.
Qed.

(** X13: when [main] is started with an empty [all_papers] (as after the
    import) and returns, [all_papers] holds the records of 2020, then those
    of 2021, and so on to 2024, each year's records in some order of the
    records extracted for that year; the CSV file is the header line and
    one line per record in that same order, or, when no record was
    extracted at all, the file as it was. *)
Theorem main_snapshot (web : Web) (schedules : Z -> list nat) (w w' : World) :
  lock w = false ->
  all_papers w = [] ->
  main web schedules w = Some w' ->
  ∃ per_year : list (list PaperRecord),
    Forall2 (fun year recs => recs ≡ₚ extracted web year) YEARS per_year ∧
    all_papers w' = concat per_year ∧
    (concat per_year = [] -> csv w' = csv w) ∧
    (concat per_year ≠ [] ->
     csv w' = line header ++ concat (row_tokens <$> concat per_year) ∧
     rows (csv w') = header :: (row_cells <$> concat per_year)).
Proof.
  intros Hlock Hempty. unfold main.
  destruct (process_years web schedules YEARS w) as [w1|] eqn:Hrun; [|done].
  intros [= <-].
  destruct (process_years_effect web schedules YEARS w w1 Hlock Hrun)
    as (_ & As & Gs & HAs & HGs & Hcsv & Hap).
  rewrite Hempty in Hap. cbn [app] in Hap.
  exists Gs. split; [done|]. unfold final_save. rewrite Hap.
  destruct (concat Gs) as [|g gs] eqn:HG.
  - split; [by rewrite Hap|]. split; [|done]. intros _.
    assert (concat As ≡ₚ []) as Hnil.
    { rewrite (concat_years web YEARS As HAs), <- (concat_years web YEARS Gs HGs).
      by rewrite HG. }
    apply Permutation_nil_r in Hnil. by rewrite Hcsv, Hnil, app_nil_r.
  - split; [exact Hap|]. split; [done|]. intros _. cbn [csv set_csv].
    split; [done|].
    change (line header ++ concat (row_tokens <$> g :: gs))
      with (concat (line <$> [header]) ++ concat (row_tokens <$> g :: gs)).
    rewrite lines_of_records, <- concat_app, <- fmap_app. apply rows_lines.
Qed.

(** X14: on a first run (the CSV file holds the header line only and
    [all_papers] is empty) the final save of [main] keeps the lines that
    the per-record appends left: the header first, then the same lines up
    to their order. *)
Theorem main_first_run (web : Web) (schedules : Z -> list nat) (w w1 : World) :
  lock w = false ->
  all_papers w = [] ->
  csv w = line header ->
  process_years web schedules YEARS w = Some w1 ->
  main web schedules w = Some (final_save w1) ∧
  ∃ appended saved : list (list pystr),
    rows (csv w1) = header :: appended ∧
    rows (csv (final_save w1)) = header :: saved ∧
    saved ≡ₚ appended.
Proof.
  intros Hlock Hempty Hfresh Hrun. unfold main. rewrite Hrun. split; [done|].
  destruct (process_years_effect web schedules YEARS w w1 Hlock Hrun)
    as (_ & As & Gs & HAs & HGs & Hcsv & Hap).
  rewrite Hempty in Hap. cbn [app] in Hap.
  assert (rows (csv w1) = header :: (row_cells <$> concat As)) as Hrows.
  { rewrite Hcsv, Hfresh.
    change (line header) with (concat (line <$> [header])).
    rewrite lines_of_records, <- concat_app, <- fmap_app. apply rows_lines. }
  assert (concat Gs ≡ₚ concat As) as Hperm.
  { by rewrite (concat_years web YEARS As HAs), (concat_years web YEARS Gs HGs). }
  exists (row_cells <$> concat As). unfold final_save. rewrite Hap.
  destruct (concat Gs) as [|g gs] eqn:HG.
  - exists (row_cells <$> concat As). by rewrite Hrows.
  - exists (row_cells <$> (g :: gs)). split; [done|]. split.
    + cbn [csv set_csv].
      change (line header ++ concat (row_tokens <$> g :: gs))
        with (concat (line <$> [header]) ++ concat (row_tokens <$> g :: gs)).
      rewrite lines_of_records, <- concat_app, <- fmap_app. apply rows_lines.
    + by rewrite Hperm.
Qed.

Lemma set_http_log_twice (f g : list pystr -> list pystr) (w : World) :
  set_http_log g (set_http_log f w) = set_http_log (fun l => g (f l)) w.
Proof. reflexivity. Qed.

(** X15: when none of the five index pages can be fetched, [main] returns
    under every schedule having made exactly five requests, for the index
    pages of 2020 to 2024 in that order, and having changed nothing else:
    the CSV file and the PDF folder are as they were. *)
Theorem main_site_down (web : Web) (schedules : Z -> list nat) (w : World) :
  (∀ year, year ∈ YEARS -> web (index_url year) = None) ->
  all_papers w = [] ->
  main web schedules w =
  Some (set_http_log (fun l => l ++ (index_url <$> YEARS)) w).
Proof.
  intros Hdown Hempty. unfold main.
  assert (∀ years w0, (∀ year, year ∈ years -> web (index_url year) = None) ->
            process_years web schedules years w0 =
            Some (set_http_log (fun l => l ++ (index_url <$> years)) w0)) as Hyears.
  { induction years as [|year years IH]; intros w0 Hnone.
    - cbn. f_equal. apply world_eq; cbn; try done. by rewrite app_nil_r.
    - cbn [process_years]. unfold process_year, get_paper_links, requests_get.
      fold (index_url year). rewrite (Hnone year) by left.
      rewrite IH by (intros y Hy; apply Hnone; by right).
      f_equal. apply world_eq; cbn; try done. by rewrite <- app_assoc. }
  rewrite (Hyears YEARS w Hdown). f_equal.
  unfold final_save. cbn [all_papers set_http_log]. by rewrite Hempty.
Qed.

Lemma queue_at_end_middle (l1 l2 : list Task) (t : Task) :
  queue_at_end (l1 ++ t :: l2) = true ->
  queued t = true ->
  forallb queued l2 = true.
Proof.
  induction l1 as [|t1 l1 IH]; cbn; intros Hq Ht.
  - rewrite Ht in Hq. by apply andb_true_iff in Hq as [? _].
  - apply andb_true_iff in Hq as [_ Hq]. by apply IH.
Qed.

Lemma queue_at_end_started (l1 l2 : list Task) (t : Task) :
  forallb (fun t => negb (queued t)) l1 = true ->
  queued t = false ->
  forallb queued l2 = true ->
  queue_at_end (l1 ++ t :: l2) = true.
Proof.
  intros H1 Ht H2. induction l1 as [|t1 l1 IH]; cbn.
  - rewrite Ht. cbn. clear Ht. induction l2 as [|t2 l2 IH2]; [done|].
    cbn in *. apply andb_true_iff in H2 as [Hq2 H2]. rewrite Hq2, H2. cbn. by apply IH2.
  - cbn in H1. apply andb_true_iff in H1 as [Hq1 H1].
    apply negb_true_iff in Hq1. rewrite Hq1. cbn. by apply IH.
Qed.

Lemma queue_at_end_same (l1 l2 : list Task) (t t' : Task) :
  queued t = false -> queued t' = false ->
  queue_at_end (l1 ++ t :: l2) = true ->
  queue_at_end (l1 ++ t' :: l2) = true.
Proof.
  intros Ht Ht'. induction l1 as [|t1 l1 IH]; cbn.
  - by rewrite Ht, Ht'.
  - intros [Hq1 Hq]%andb_true_iff. apply andb_true_iff. split; [|by apply IH].
    destruct (queued t1); [|done]. rewrite forallb_app in Hq1 |- *.
    cbn in *. by rewrite Ht in Hq1; rewrite andb_false_r in Hq1.
Qed.

Lemma advance_stays_started (web : Web) (free_worker : bool) (t t' : Task) (w w' : World) :
  advance web free_worker t w = Some (t', w') -> queued t' = false.
Proof.
  intros Hadv. destruct t as [url|pd|pd|pd|pd n|[pd|]|pd|]; cbn [advance] in Hadv;
    repeat case_match; simplify_eq; done.
Qed.

(** Workers take the tasks in the order of submission. *)
Lemma step_queue_at_end (web : Web) (i : nat) (p p' : Pool) :
  queue_at_end (tasks p) = true ->
  step web i p = Some p' ->
  queue_at_end (tasks p') = true.
Proof.
  intros Hq Hstep. unfold step in Hstep. destruct p as [ts w]. cbn [tasks world] in *.
  destruct (ts !! i) as [t|] eqn:Hi; [|done].
  destruct (advance web (can_start i ts) t w) as [[t' w']|] eqn:Hadv; [|done].
  injection Hstep as <-. cbn [tasks].
  rewrite insert_take_drop by (by eapply lookup_lt_Some).
  rewrite <- (take_drop_middle ts i t Hi) in Hq.
  pose proof (advance_stays_started web _ t t' w w' Hadv) as Ht'.
  destruct (queued t) eqn:Ht.
  - apply queue_at_end_started; [|done|by eapply queue_at_end_middle].
    destruct t; try done. cbn [advance] in Hadv.
    unfold can_start in Hadv.
    destruct (forallb (fun t => negb (queued t)) (take i ts)); [done|].
    by rewrite andb_false_r in Hadv.
  - by eapply queue_at_end_same.
Qed.

Lemma run_queue_at_end (web : Web) (schedule : list nat) (p p' : Pool) :
  queue_at_end (tasks p) = true ->
  run web schedule p = Some p' ->
  queue_at_end (tasks p') = true.
Proof.
  revert p. induction schedule as [|i schedule IH]; intros p Hq Hrun.
  - cbn in Hrun. by injection Hrun as <-.
  - cbn [run] in Hrun. destruct (step web i p) as [p1|] eqn:Hstep; [|done].
    eapply IH; [|exact Hrun]. by eapply step_queue_at_end.
Qed.

Lemma steps_left_bound (t : Task) : (steps_left t <= 13)%nat.
Proof. destruct t; cbn; lia. Qed.

Lemma can_start_front (k : nat) (t : Task) (rest : list Task) :
  forallb queued rest = true ->
  queued t = true ->
  can_start k (replicate k Collected ++ t :: rest) = true.
Proof.
  intros Hrest Ht. unfold can_start. apply andb_true_iff. split.
  - apply bool_decide_eq_true.
    assert (filter (fun t => running t) (replicate k Collected ++ t :: rest) = []) as ->.
    { rewrite filter_app.
      assert (filter (fun t => running t) (replicate k Collected) = []) as ->.
      { induction k; [done|]. by rewrite replicate_S, filter_cons. }
      cbn [app]. rewrite filter_cons, decide_False
        by (destruct t; try done; simpl; tauto).
      clear Ht. induction rest as [|t2 rest IH]; [done|]. cbn in Hrest.
      apply andb_true_iff in Hrest as [Hq2 Hrest].
      rewrite filter_cons, decide_False by (destruct t2; try done; simpl; tauto).
      by apply IH. }
    cbn. unfold max_workers. lia.
  - rewrite take_app_length' by (by rewrite length_replicate).
    induction k; [done|]. done.
Qed.

(** With the lock free and no task inside [with lock], the tasks can be run
    to their end one after the other. *)
Lemma drain (web : Web) (rest : list Task) (k : nat) (p : Pool) :
  tasks p = replicate k Collected ++ rest ->
  lock (world p) = false ->
  Forall (fun t => holds_lock t = false) rest ->
  queue_at_end rest = true ->
  ∃ schedule p', run web schedule p = Some p' ∧
                 tasks p' = replicate (k + length rest) Collected.
Proof.
  revert k p. induction rest as [|t rest IH]; intros k p Htasks Hlock Hfree Hq.
  - exists [], p. split; [done|]. by rewrite Htasks, app_nil_r, Nat.add_0_r.
  - apply Forall_cons in Hfree as [Ht Hfree]. cbn in Hq.
    apply andb_true_iff in Hq as [Hqt Hq].
    destruct (solo_finishes web 13 k p t) as (Hrun & Hts & Hl).
    { rewrite Htasks. apply list_lookup_middle. by rewrite length_replicate. }
    { apply steps_left_bound. }
    { by rewrite Hlock, Ht. }
    { intros Hqueued. rewrite Hqueued in Hqt. rewrite Htasks.
      by apply can_start_front. }
    destruct (IH (S k) (solo web 13 k p).2) as (schedule & p' & Hrun' & Hts'); try done.
    { rewrite Hts, Htasks.
      rewrite insert_app_r_alt by (by rewrite length_replicate).
      rewrite length_replicate, Nat.sub_diag. cbn.
      by rewrite app_comm_cons, replicate_cons_app, <- app_assoc. }
    exists ((solo web 13 k p).1 ++ schedule), p'. rewrite run_app, Hrun.
    split; [done|]. rewrite Hts'. f_equal. cbn. lia.
Qed.

Lemma no_holders (ts : list Task) :
  length (filter (fun t => holds_lock t) ts) = 0%nat ->
  Forall (fun t => holds_lock t = false) ts.
Proof.
  induction ts as [|t ts IH]; [done|].
  rewrite filter_cons. destruct (holds_lock t) eqn:Ht.
  - by rewrite decide_True.
  - rewrite decide_False by (simpl; tauto). intros Hlen. constructor; auto.
Qed.

(** X16: a pool cannot get stuck: whatever its threads have done so far,
    there is a way to schedule them from there that lets every task return
    and every future be collected, so [process_year] can always come to its
    end. *)
Theorem pool_never_stuck (web : Web) (links : list pystr) (schedule : list nat) (w : World) (p : Pool) :
  lock w = false ->
  run web schedule {| tasks := Queued <$> links; world := w |} = Some p ->
  ∃ schedule' p',
    run web (schedule ++ schedule') {| tasks := Queued <$> links; world := w |} = Some p' ∧
    forallb collected (tasks p') = true.
Proof.
  intros Hlock Hrun.
  pose proof (run_pool_inv web _ _ _ schedule _ p (pool_inv_init web links w Hlock) Hrun)
    as (_ & _ & _ & _ & _ & _ & Hl).
  assert (queue_at_end (tasks p) = true) as Hq.
  { eapply run_queue_at_end; [|exact Hrun]. cbn [tasks].
    clear. induction links as [|url links IH]; [done|].
    cbn. rewrite IH, andb_true_r. clear. induction links; [done|]. done. }
  assert (∃ s1 p1, run web s1 p = Some p1 ∧ lock (world p1) = false ∧
                   Forall (fun t => holds_lock t = false) (tasks p1) ∧
                   queue_at_end (tasks p1) = true) as (s1 & p1 & Hrun1 & Hlock1 & Hfree1 & Hq1).
  { destruct (lock (world p)) eqn:Hlk.
    - destruct (some_holder (tasks p)) as (h & t & Hh & Hth); [rewrite Hl; lia|].
      assert (queued t = false) as Hqt by (by destruct t).
      destruct (solo_finishes web 13 h p t Hh) as (Hr & Hts & Hlk').
      { apply steps_left_bound. } { by rewrite Hlk, Hth. } { by rewrite Hqt. }
      exists (solo web 13 h p).1, (solo web 13 h p).2.
      split; [done|]. split; [done|]. rewrite Hts.
      rewrite insert_take_drop by (by eapply lookup_lt_Some).
      rewrite <- (take_drop_middle (tasks p) h _ Hh) in Hl, Hq.
      rewrite holders_middle, Hth in Hl. split.
      + apply no_holders. rewrite holders_middle. cbn [holds_lock]. lia.
      + by eapply queue_at_end_same; [| |exact Hq].
    - exists [], p. split; [done|]. split; [done|]. split; [|done].
      by apply no_holders. }
  destruct (drain web (tasks p1) 0 p1 eq_refl Hlock1 Hfree1 Hq1)
    as (s2 & p2 & Hrun2 & Hts2).
  exists (s1 ++ s2), p2. rewrite run_app, Hrun, run_app, Hrun1, Hrun2. split; [done|].
  rewrite Hts2. apply forallb_True_replicate.
Qed.

Lemma started_middle (k1 k2 : list pystr) (l1 l2 : list Task) (url : pystr) (t : Task) :
  length k1 = length l1 ->
  concat (zip_with started (k1 ++ url :: k2) (l1 ++ t :: l2)) =
  concat (zip_with started k1 l1) ++ started url t ++ concat (zip_with started k2 l2).
Proof.
  intros Hlen. rewrite zip_with_app by done. by rewrite concat_app.
Qed.

Lemma started_insert (links : list pystr) (ts : list Task) (i : nat) (url : pystr) (t t' : Task) :
  links !! i = Some url ->
  ts !! i = Some t ->
  length links = length ts ->
  ∃ before after,
    concat (zip_with started links ts) = before ++ started url t ++ after ∧
    concat (zip_with started links (<[i:=t']> ts)) = before ++ started url t' ++ after.
Proof.
  intros Hurl Hi Hlen.
  assert (length (take i links) = length (take i ts)) as Hlen'.
  { rewrite !length_take. lia. }
  exists (concat (zip_with started (take i links) (take i ts))),
         (concat (zip_with started (drop (S i) links) (drop (S i) ts))).
  split.
  - rewrite <- (started_middle _ _ _ _ url t Hlen').
    by rewrite !take_drop_middle.
  - rewrite <- (started_middle _ _ _ _ url t' Hlen').
    rewrite insert_take_drop by (by eapply lookup_lt_Some).
    by rewrite (take_drop_middle links i url Hurl).
Qed.

Lemma step_requests_inv (web : Web) (links log0 : list pystr) (i : nat) (p p' : Pool) :
  requests_inv web links log0 p ->
  step web i p = Some p' ->
  requests_inv web links log0 p'.
Proof.
  intros (Htasks & asked & downloads & Hlog & Hperm & Hdown) Hstep.
  unfold step in Hstep. destruct p as [ts w]. cbn [tasks world] in *.
  destruct (ts !! i) as [t|] eqn:Hi; [|done].
  destruct (advance web (can_start i ts) t w) as [[t' w']|] eqn:Hadv; [|done].
  injection Hstep as <-. unfold requests_inv. cbn [tasks world].
  destruct (Forall2_lookup_r _ _ _ _ _ Htasks Hi) as (url & Hurl & Ht).
  assert (task_of (omap (extract web) links) url t' ->
          Forall2 (task_of (omap (extract web) links)) links (<[i:=t']> ts)) as Hnew.
  { intros Ht'.
    pose proof (Forall2_insert _ _ _ url t' i Htasks Ht') as Hf.
    by rewrite (list_insert_id links i url Hurl) in Hf. }
  destruct (started_insert links ts i url t t' Hurl Hi (Forall2_length _ _ _ Htasks))
    as (before & after & Hold & Hnow).
  rewrite Hold in Hperm. rewrite Hnow. clear Hold Hnow.
  destruct t as [u|pd|pd|pd|pd n|[pd|]|pd|]; cbn [advance] in Hadv; cbn [task_of] in Ht.
  - destruct (can_start i ts); [|done]. rewrite scrape_paper_data_eq in Hadv. subst u.
    destruct (extract web url) as [pd|] eqn:Hex; injection Hadv as <- <-.
    + split.
      * apply Hnew. cbn. apply list_elem_of_omap. exists url.
        split; [by eapply list_elem_of_lookup_2|done].
      * exists (asked ++ [url]), downloads. cbn [http_log set_http_log].
        rewrite Hlog, app_assoc. split; [done|]. split; [|done].
        rewrite Hperm. unfold started. cbn. solve_Permutation.
    + split; [by apply Hnew|].
      exists (asked ++ [url]), downloads. cbn [http_log set_http_log].
      rewrite Hlog, app_assoc. split; [done|]. split; [|done].
      rewrite Hperm. unfold started. cbn. solve_Permutation.
  - destruct (pdf_url pd) as [u|] eqn:Hu;
      [destruct (truthy u); cbn [negb] in Hadv;
       [destruct (exists_ (filename pd) w); cbn [negb] in Hadv|]|];
      injection Hadv as <- <-;
      (split; [apply Hnew; cbn; try done; by rewrite Hu|]);
      by exists asked, downloads.
  - injection Hadv as <- <-. destruct Ht as [Hin [u Hu]]. split; [by apply Hnew|].
    rewrite Hu. change (default [] (Some u)) with u. unfold fetch_pdf, requests_get.
    exists (asked ++ [u]), (downloads ++ [u]). split.
    + destruct (web u) as [response|]; cbn; [|by rewrite Hlog, app_assoc].
      destruct (open_wb (filename pd) (requests.content response)); cbn;
        by rewrite Hlog, app_assoc.
    + split.
      * rewrite Hperm. unfold started. cbn. solve_Permutation.
      * apply Forall_app. split; [done|]. constructor; [|done]. by exists pd.
  - destruct (lock w); [done|]. injection Hadv as <- <-.
    split; [by apply Hnew|]. by exists asked, downloads.
  - destruct (row_tokens pd !! n); injection Hadv as <- <-;
      (split; [by apply Hnew|]); by exists asked, downloads.
  - destruct (lock w); [done|]. injection Hadv as <- <-.
    split; [by apply Hnew|]. by exists asked, downloads.
  - injection Hadv as <- <-. split; [by apply Hnew|]. by exists asked, downloads.
  - injection Hadv as <- <-. split; [by apply Hnew|]. by exists asked, downloads.
  - done.
Qed.

Lemma run_requests_inv (web : Web) (links log0 : list pystr) (schedule : list nat) (p p' : Pool) :
  requests_inv web links log0 p ->
  run web schedule p = Some p' ->
  requests_inv web links log0 p'.
Proof.
  revert p. induction schedule as [|i schedule IH]; intros p Hinv Hrun.
  - cbn in Hrun. by injection Hrun as <-.
  - cbn [run] in Hrun. destruct (step web i p) as [p1|] eqn:Hstep; [|done].
    eapply IH; [|exact Hrun]. by eapply step_requests_inv.
Qed.

Lemma requests_inv_init (web : Web) (links : list pystr) (w : World) :
  requests_inv web links (http_log w) {| tasks := Queued <$> links; world := w |}.
Proof.
  split.
  - cbn [tasks]. generalize (omap (extract web) links). intros recs.
    induction links as [|url links IH]; [constructor|].
    rewrite fmap_cons. by constructor.
  - exists [], []. cbn [tasks world]. rewrite app_nil_r. split; [done|]. split; [|done].
    assert (concat (zip_with started links (Queued <$> links)) = []) as ->; [|done].
    induction links as [|url links IH]; [done|]. cbn. exact IH.
Qed.

Lemma started_all (links : list pystr) (ts : list Task) :
  length links = length ts ->
  Forall (fun t => collected t = true) ts ->
  concat (zip_with started links ts) = links.
Proof.
  intros Hlen Hall. revert links Hlen.
  induction Hall as [|t ts Ht _ IH]; intros [|url links] Hlen; try done.
  cbn. rewrite IH by (cbn in Hlen; lia). by destruct t.
Qed.

(** X17: a run of [process_year] requests the index page first and then,
    in some order, every discovered link exactly once (there is no retry)
    and PDFs; every PDF request is for the [pdf_url] of a record extracted
    in this run. *)
Theorem process_year_requests (web : Web) (year : Z) (schedule : list nat) (w w' : World) (r : Returned) :
  process_year web year schedule w = Some (w', r) ->
  ∃ asked downloads : list pystr,
    http_log w' = http_log w ++ index_url year :: asked ∧
    asked ≡ₚ discovered web year ++ downloads ∧
    Forall (fun u => ∃ paper_data, paper_data ∈ extracted web year ∧
                                   pdf_url paper_data = Some u) downloads.
Proof.
  unfold process_year, extracted. rewrite <- (discovered_eq web year w).
  pose proof (get_paper_links_world web year w) as Hwld.
  destruct (get_paper_links web year w) as [w1 paper_links]. cbn [fst snd] in *.
  destruct paper_links as [|url urls].
  - intros [= <- <-]. exists [], []. subst w1. by cbn.
  - destruct (run web schedule {| tasks := Queued <$> url :: urls; world := w1 |})
      as [p|] eqn:Hrun; [|done].
    destruct (forallb collected (tasks p)) eqn:Hall; [|done]. intros [= <- <-].
    destruct (run_requests_inv web _ _ schedule _ p
                (requests_inv_init web (url :: urls) w1) Hrun)
      as (Htasks & asked & downloads & Hlog & Hperm & Hdown).
    assert (Forall (fun t => collected t = true) (tasks p)) as Hcol.
    { apply Is_true_true, forallb_True in Hall.
      eapply Forall_impl; [exact Hall|]. intros t Ht. by apply Is_true_true. }
    rewrite started_all in Hperm by (by apply Forall2_length in Htasks).
    exists asked, downloads. split; [|done].
    rewrite Hlog. subst w1. cbn. by rewrite <- app_assoc.
Qed.

End Pool.

(** ** The further properties on the small site *)

#[local] Existing Instance demo.libraries.

Lemma discovered_record_year_witness :
  scrapper.year demo.sparse_nets = str 2020.
Proof.
  apply (discovered_record_year demo.site 2020 demo.fresh demo.fresh
           (BASE_URL ++ demo.bare_href) demo.sparse_nets).
  - apply (bool_decide_unpack _). vm_compute. exact I.
  - vm_compute. reflexivity.
Defined.

Lemma scraped_filename_in_folder_witness :
  ∃ base, filename demo.deep_nets = PDF_FOLDER ++ py "/" ++ base ∧
          free_of 47 base = true.
Proof.
  apply (scraped_filename_in_folder demo.site (BASE_URL ++ demo.abstract_href)
           demo.fresh demo.deep_nets).
  vm_compute. reflexivity.
Defined.

Lemma download_pdf_collision_witness :
  title demo.twin ≠ title demo.deep_nets ∧
  download_pdf demo.site demo.twin (download_pdf demo.site demo.deep_nets demo.fresh) =
  download_pdf demo.site demo.deep_nets demo.fresh.
Proof.
  split; [vm_compute; discriminate|].
  apply (download_pdf_collision demo.site demo.site demo.deep_nets demo.twin demo.fresh
           (BASE_URL ++ demo.paper_pdf_href)
           {| requests.text := []; requests.content := [37; 80; 68; 70] |}
           [37; 80; 68; 70]).
  - reflexivity.
  - vm_compute. reflexivity.
  - reflexivity.
  - vm_compute. reflexivity.
  - vm_compute. reflexivity.
  - reflexivity.
Defined.

Lemma pool_of_one_is_process_paper_witness :
  let p := {| tasks := [Queued (BASE_URL ++ demo.bare_href)]; world := demo.fresh |} in
  ∃ p', run demo.site (solo demo.site 13 0 p).1 p = Some p' ∧
        all_papers (world p') = [demo.sparse_nets].
Proof.
  intros p. eexists. split.
  - apply (pool_of_one_is_process_paper demo.site (BASE_URL ++ demo.bare_href) demo.fresh).
    reflexivity.
  - vm_compute. reflexivity.
Defined.

Lemma pool_mutual_exclusion_witness :
  lock (world demo.mid_run) = true ↔
  ∃ i t, tasks demo.mid_run !! i = Some t ∧ holds_lock t = true.
Proof.
  destruct (pool_mutual_exclusion demo.site
              [BASE_URL ++ demo.abstract_href; BASE_URL ++ demo.bare_href]
              (take 8 demo.interleaved) demo.fresh demo.mid_run)
    as (_ & _ & Htaken).
  - reflexivity.
  - vm_compute. reflexivity.
  - exact Htaken.
Defined.

Lemma pool_file_whole_lines_witness :
  ∃ (written : list PaperRecord) (unfinished : list token),
    csv (world demo.mid_run) = line header ++ concat (row_tokens <$> written) ++ unfinished ∧
    ∃ i,
      (∃ paper_data n, tasks demo.mid_run !! i = Some (Writing paper_data n) ∧
                       unfinished = take n (row_tokens paper_data)) ∨
      (∃ paper_data, tasks demo.mid_run !! i = Some (Collecting paper_data) ∧
                     unfinished = []).
Proof.
  destruct (pool_file_whole_lines demo.site
              [BASE_URL ++ demo.abstract_href; BASE_URL ++ demo.bare_href]
              (take 8 demo.interleaved) demo.fresh demo.mid_run)
    as (written & unfinished & Hcsv & _ & _ & Htaken).
  - reflexivity.
  - vm_compute. reflexivity.
  - exists written, unfinished. split; [exact Hcsv|]. apply Htaken.
    vm_compute. reflexivity.
Defined.

(** The main thread inside its own [with lock] block: in [demo.collecting]
    it holds the lock for the record of the second task, both lines are in
    the file and nothing is in [all_papers] yet. *)
Example main_thread_holds_lock :
  tasks demo.collecting = [Done (Some demo.deep_nets); Collecting demo.sparse_nets] ∧
  lock (world demo.collecting) = true ∧
  rows (csv (world demo.collecting)) =
    [header; row_cells demo.sparse_nets; row_cells demo.deep_nets] ∧
  all_papers (world demo.collecting) = [].
Proof. vm_compute. repeat split. Qed.

Lemma pool_never_stuck_witness :
  ∃ schedule' p',
    run demo.site (take 8 demo.interleaved ++ schedule') demo.pool_2020 = Some p' ∧
    forallb collected (tasks p') = true.
Proof.
  apply (pool_never_stuck demo.site
           [BASE_URL ++ demo.abstract_href; BASE_URL ++ demo.bare_href]
           (take 8 demo.interleaved) demo.fresh demo.mid_run).
  - reflexivity.
  - vm_compute. reflexivity.
Defined.

Lemma process_year_requests_witness :
  ∃ asked downloads : list pystr,
    http_log demo.after_2020.1 = index_url 2020 :: asked ∧
    asked ≡ₚ discovered demo.site 2020 ++ downloads.
Proof.
  destruct (process_year_requests demo.site 2020 (demo.in_turn demo.fresh 2020)
              demo.fresh demo.after_2020.1 demo.after_2020.2)
    as (asked & downloads & Hlog & Hperm & _).
  - vm_compute. reflexivity.
  - exists asked, downloads. split; [exact Hlog|exact Hperm].
Defined.

Lemma main_keeps_pdfs_witness :
  pdfs demo.after_stocked !! filename demo.deep_nets = Some [1; 2; 3].
Proof.
  apply (main_keeps_pdfs demo.site (demo.in_turn demo.stocked) demo.stocked demo.after_stocked).
  - vm_compute. reflexivity.
  - vm_compute. reflexivity.
Defined.

Lemma main_snapshot_witness :
  ∃ per_year : list (list PaperRecord),
    Forall2 (fun year recs => recs ≡ₚ extracted demo.site year) YEARS per_year ∧
    all_papers demo.after_main = concat per_year.
Proof.
  destruct (main_snapshot demo.site (demo.in_turn demo.fresh) demo.fresh demo.after_main)
    as (per_year & Hyears & Hall & _).
  - reflexivity.
  - reflexivity.
  - vm_compute. reflexivity.
  - exists per_year. split; [exact Hyears|exact Hall].
Defined.

Lemma main_first_run_witness :
  main demo.site (demo.in_turn demo.fresh) demo.fresh = Some (final_save demo.after_years).
Proof.
  apply (main_first_run demo.site (demo.in_turn demo.fresh) demo.fresh demo.after_years).
  - reflexivity.
  - reflexivity.
  - reflexivity.
  - vm_compute. reflexivity.
Defined.

Lemma main_site_down_witness :
  main demo.offline (fun _ => []) demo.rerun =
  Some (set_http_log (fun l => l ++ (index_url <$> YEARS)) demo.rerun).
Proof.
  apply (main_site_down demo.offline (fun _ => []) demo.rerun).
  - intros year _. reflexivity.
  - reflexivity.
Defined.

End scrapper_extra.

(** * Further properties of annotation.py *)

Module annotation_extra.
Import annotation annotation_spec annotation_properties.

Section Pass.
Variable service : Service.

Lemma alter_middle {A} (f : A -> A) (l1 l2 : list A) (x : A) :
  alter f (length l1) (l1 ++ x :: l2) = l1 ++ f x :: l2.
Proof. induction l1 as [|y l1 IH]; [done|]. cbn. by rewrite IH. Qed.

(** The loop with its update in place, from a frame whose rows are [done]
    followed by the rows still to come. *)
Lemma iterrows_exact (todo done : list Series) (r : Run) :
  Forall readable todo ->
  data (df r) = done ++ todo ->
  ∃ r', iterrows service (length done) todo r = Some r' ∧
    data (df r') = done ++ relabel service (length (calls r)) todo ∧
    calls r' = calls r ++ (paper_of <$> filter (fun row => needs_label row) todo) ∧
    columns (df r') = columns (df r) ∧
    (todo = [] -> r' = r) ∧
    (todo ≠ [] -> output r' = Some (df r')).
Proof.
  revert done r. induction todo as [|row todo IH]; intros done r Hwf Hdata.
  - rewrite app_nil_r in Hdata. exists r. cbn. rewrite !app_nil_r.
    repeat split; try done.
  - apply Forall_cons in Hwf as [([title Ht] & [abstract Ha] & [label Hl]) Hwf].
    cbn [iterrows relabel]. unfold annotate_row, needs_label, paper_of.
    rewrite Hl, Ht, Ha. cbn [default fst snd].
    destruct (unlabeled label) eqn:Hun.
    + set (lbl := classify_paper service (length (calls r)) title abstract).
      set (r1 := {| df := set_label (length done) lbl (df r);
                    output := Some (set_label (length done) lbl (df r));
                    calls := calls r ++ [(title, abstract)] |}).
      destruct (IH (done ++ [<[py "label" := Str lbl]> row]) r1 Hwf)
        as (r' & Hrun & Hrows & Hcalls & Hcols & Hnil & Hout).
      { cbn [r1 df set_label data]. rewrite Hdata, alter_middle.
        by rewrite <- app_assoc. }
      rewrite length_app, Nat.add_1_r in Hrun.
      exists r'. split; [exact Hrun|]. split; [|split; [|split; [|split]]].
      * rewrite Hrows. cbn [r1 calls]. rewrite length_app, Nat.add_1_r.
        by rewrite <- app_assoc.
      * rewrite Hcalls, filter_cons.
        rewrite decide_True by (unfold needs_label; by rewrite Hl, Hun).
        cbn [r1 calls]. rewrite fmap_cons, <- app_assoc. unfold paper_of.
        by rewrite Ht, Ha.
      * by rewrite Hcols.
      * done.
      * intros _. destruct todo as [|row' todo]; [by rewrite (Hnil eq_refl)|].
        by apply Hout.
    + set (r1 := {| df := df r; output := Some (df r); calls := calls r |}).
      destruct (IH (done ++ [row]) r1 Hwf)
        as (r' & Hrun & Hrows & Hcalls & Hcols & Hnil & Hout).
      { cbn [r1 df]. by rewrite Hdata, <- app_assoc. }
      rewrite length_app, Nat.add_1_r in Hrun.
      exists r'. split; [exact Hrun|]. split; [|split; [|split; [|split]]].
      * rewrite Hrows. cbn [r1 calls]. by rewrite <- app_assoc.
      * rewrite Hcalls, filter_cons.
        rewrite decide_False by (unfold needs_label; rewrite Hl, Hun; simpl; tauto).
        done.
      * by rewrite Hcols.
      * done.
      * intros _. destruct todo as [|row' todo]; [by rewrite (Hnil eq_refl)|].
        by apply Hout.
Qed.

Lemma loadable_readable (d : DataFrame) :
  loadable d -> Forall readable (data (ensure_label d)).
Proof.
  unfold loadable, ensure_label. intros Hd. case_bool_decide as Hcol.
  - eapply Forall_impl; [exact Hd|]. intros row (Ht & Ha & Hl).
    split; [done|]. split; [done|]. by apply Hl.
  - cbn [data]. apply Forall_fmap. eapply Forall_impl; [exact Hd|].
    intros row (Ht & Ha & _). unfold readable, compose.
    rewrite !lookup_insert_ne by done. rewrite lookup_insert_eq.
    split; [done|]. split; [done|]. by eexists.
Qed.

(** X18: the loop of [annotate_papers], which walks the rows it read at the
    start and updates the frame in place by row number, computes the
    row-by-row relabelling: the [k]-th row that needs a label gets the
    answer to the [k]-th request, no other row changes, and the columns
    stay. *)
Theorem annotate_papers_relabels (d : DataFrame) (out : option DataFrame) :
  loadable d ->
  ∃ r, annotate_papers service (Some d) out = Some r ∧
    columns (df r) = columns (ensure_label d) ∧
    data (df r) = relabel service 0 (data (ensure_label d)) ∧
    calls r = paper_of <$> filter (fun row => needs_label row) (data (ensure_label d)).
Proof.
  intros Hd. unfold annotate_papers.
  destruct (iterrows_exact (data (ensure_label d)) []
              {| df := ensure_label d; output := out; calls := [] |}
              (loadable_readable d Hd) eq_refl)
    as (r & Hrun & Hrows & Hcalls & Hcols & _).
  exists r. split; [exact Hrun|]. split; [exact Hcols|]. split; [exact Hrows|exact Hcalls].
Qed.

Lemma classify_paper_outcome (k : nat) (title abstract : cell) :
  classify_paper service k title abstract ∈ outcomes.
Proof.
  unfold classify_paper, outcomes.
  destruct (service k (prompt title abstract)) as [text|].
  - case_bool_decide as Hin; apply elem_of_app; [by left|right; left].
  - apply elem_of_app. right. left.
Qed.

Lemma outcome_is_label (label : pystr) :
  label ∈ outcomes -> unlabeled (Str label) = false.
Proof.
  unfold outcomes, LABELS. cbn [app]. rewrite !elem_of_cons.
  intros [-> | [-> | [-> | [-> | [-> | [-> | Hnil]]]]]]; try reflexivity.
  by apply elem_of_nil in Hnil.
Qed.

Lemma relabel_rows (k : nat) (rows : list Series) :
  Forall readable rows ->
  Forall2 (fun before after =>
             if needs_label before
             then ∃ label, label ∈ outcomes ∧ after = <[py "label" := Str label]> before
             else after = before)
          rows (relabel service k rows) ∧
  Forall (fun row => readable row ∧ needs_label row = false) (relabel service k rows).
Proof.
  intros Hwf. revert k. induction Hwf as [|row rows Hrow _ IH]; intros k.
  - split; constructor.
  - destruct (IH k) as [IH1 IH2]. destruct (IH (S k)) as [IH1' IH2'].
    cbn [relabel]. destruct (needs_label row) eqn:Hneed.
    + pose proof (classify_paper_outcome k (paper_of row).1 (paper_of row).2) as Hout.
      split; constructor; try done.
      * rewrite Hneed. by eexists.
      * destruct Hrow as (Ht & Ha & _). split.
        -- unfold readable. rewrite !lookup_insert_ne by done.
           rewrite lookup_insert_eq. split; [done|]. split; [done|]. by eexists.
        -- unfold needs_label. rewrite lookup_insert_eq. by apply outcome_is_label.
    + split; constructor; try done. by rewrite Hneed.
Qed.

(** X19: after a pass over a loadable store no row is left without a label:
    a row that had a label other than "N/A" is as it was, and a row that
    needed one differs in its label only, which is one of the five labels
    or "Other". *)
Theorem annotate_papers_labels_every_row (d : DataFrame) (out : option DataFrame) (r : Run) :
  loadable d ->
  annotate_papers service (Some d) out = Some r ->
  Forall2 (fun before after =>
             if needs_label before
             then ∃ label, label ∈ outcomes ∧ after = <[py "label" := Str label]> before
             else after = before)
          (data (ensure_label d)) (data (df r)) ∧
  Forall (fun row => needs_label row = false) (data (df r)).
Proof.
  intros Hd Hrun. unfold annotate_papers in Hrun.
  destruct (iterrows_exact (data (ensure_label d)) []
              {| df := ensure_label d; output := out; calls := [] |}
              (loadable_readable d Hd) eq_refl)
    as (r' & Hrun' & Hrows & _).
  cbn [length] in Hrun'. rewrite Hrun' in Hrun. injection Hrun as <-.
  cbn [app calls length] in Hrows. rewrite Hrows.
  destruct (relabel_rows 0 (data (ensure_label d)) (loadable_readable d Hd)) as [H1 H2].
  split; [exact H1|]. eapply Forall_impl; [exact H2|]. by intros row [_ ?].
Qed.

(** A pass over rows that all have their label writes the frame after each
    row and calls nothing. *)
Lemma iterrows_labelled (service' : Service) (todo : list Series) (idx : nat) (r : Run) :
  Forall (fun row => readable row ∧ needs_label row = false) todo ->
  iterrows service' idx todo r =
  Some {| df := df r;
          output := match todo with [] => output r | _ :: _ => Some (df r) end;
          calls := calls r |}.
Proof.
  intros Hwf. revert idx r. induction Hwf as [|row todo [Hrow Hneed] _ IH]; intros idx r.
  - by destruct r.
  - cbn [iterrows]. unfold annotate_row. destruct Hrow as (_ & _ & [label Hl]).
    unfold needs_label in Hneed. rewrite Hl in Hneed. rewrite Hl, Hneed.
    rewrite IH. cbn. by destruct todo.
Qed.

Lemma ensure_label_column (d : DataFrame) : py "label" ∈ columns (ensure_label d).
Proof.
  unfold ensure_label. case_bool_decide as Hcol; [done|].
  cbn. apply elem_of_app. right. left.
Qed.

(** X20: a second pass over the frame a pass has produced calls the service
    for no row and leaves the frame as it is, whatever the service would
    answer. *)
Theorem annotate_papers_again (service' : Service) (d : DataFrame) (out out' : option DataFrame) (r : Run) :
  loadable d ->
  annotate_papers service (Some d) out = Some r ->
  ∃ r', annotate_papers service' (Some (df r)) out' = Some r' ∧
        df r' = df r ∧ calls r' = [].
Proof.
  intros Hd Hrun. unfold annotate_papers in Hrun.
  destruct (iterrows_exact (data (ensure_label d)) []
              {| df := ensure_label d; output := out; calls := [] |}
              (loadable_readable d Hd) eq_refl)
    as (r0 & Hrun0 & Hrows & _ & Hcols & _).
  cbn [length] in Hrun0. rewrite Hrun0 in Hrun. injection Hrun as <-.
  cbn [app calls length df] in Hrows, Hcols.
  destruct (relabel_rows 0 (data (ensure_label d)) (loadable_readable d Hd)) as [_ Hdone].
  rewrite <- Hrows in Hdone.
  unfold annotate_papers.
  assert (ensure_label (df r0) = df r0) as ->.
  { unfold ensure_label. rewrite bool_decide_eq_true_2; [done|].
    rewrite Hcols. apply ensure_label_column. }
  rewrite (iterrows_labelled service' _ 0 _ Hdone). by eexists.
Qed.

Lemma iterrows_raises (todo : list Series) (idx : nat) (r : Run) (row : Series) :
  row ∈ todo ->
  needs_label row = true ->
  row !! py "title" = None ∨ row !! py "abstract" = None ->
  iterrows service idx todo r = None.
Proof.
  intros Hin Hneed Hmiss. revert idx r.
  induction todo as [|row' todo IH]; intros idx r; [by apply elem_of_nil in Hin|].
  cbn [iterrows]. apply elem_of_cons in Hin as [<-|Hin].
  - unfold annotate_row. unfold needs_label in Hneed.
    destruct (row !! py "label") as [label|]; [|done]. rewrite Hneed.
    destruct Hmiss as [-> | ->]; [done|]. by destruct (row !! py "title").
  - destruct (annotate_row service idx row' r); [by apply IH|done].
Qed.

(** X21: when the store has the label column and some row that needs a
    label has no title or no abstract cell, [annotate_papers] ends in the
    [KeyError] of line 59 or 60 (or in an earlier one) instead of
    returning. *)
Theorem annotate_papers_key_error (d : DataFrame) (out : option DataFrame) (row : Series) :
  py "label" ∈ columns d ->
  row ∈ data d ->
  needs_label row = true ->
  row !! py "title" = None ∨ row !! py "abstract" = None ->
  annotate_papers service (Some d) out = None.
Proof.
  intros Hcol Hin Hneed Hmiss. unfold annotate_papers, ensure_label.
  rewrite bool_decide_eq_true_2 by done. by eapply iterrows_raises.
Qed.

Lemma iterrows_output (todo : list Series) (idx : nat) (r r' : Run) :
  iterrows service idx todo r = Some r' ->
  (todo = [] -> r' = r) ∧ (todo ≠ [] -> output r' = Some (df r')).
Proof.
  revert idx r. induction todo as [|row todo IH]; intros idx r Hrun.
  - cbn in Hrun. injection Hrun as <-. done.
  - split; [done|]. intros _. cbn [iterrows] in Hrun.
    destruct (annotate_row service idx row r) as [r1|] eqn:Hrow; [|done].
    destruct (IH _ _ Hrun) as [Hnil Hout].
    destruct todo as [|row' todo]; [|by apply Hout].
    rewrite (Hnil eq_refl). unfold annotate_row in Hrow.
    repeat case_match; simplify_eq; done.
Qed.

(** X22: [annotate_papers] writes the annotated file after every row, so
    when it returns from a store with at least one row the file holds the
    final frame; from a store without rows, or when the CSV file is
    missing, it returns without having written the file or called the
    service. *)
Theorem annotate_papers_output (csv_file : option DataFrame) (out : option DataFrame) (r : Run) :
  annotate_papers service csv_file out = Some r ->
  match csv_file with
  | None => output r = out ∧ calls r = []
  | Some d =>
      (data d = [] -> output r = out ∧ calls r = []) ∧
      (data d ≠ [] -> output r = Some (df r))
  end.
Proof.
  unfold annotate_papers. destruct csv_file as [d|]; [|by intros [= <-]].
  intros Hrun. destruct (iterrows_output _ _ _ _ Hrun) as [Hnil Hout].
  assert (data (ensure_label d) = [] ↔ data d = []) as Hempty.
  { unfold ensure_label. case_bool_decide; [done|]. cbn. by destruct (data d). }
  split.
  - intros Hd. rewrite (Hnil (proj2 Hempty Hd)). done.
  - intros Hd. apply Hout. by rewrite Hempty.
Qed.

Lemma relabel_fresh (k : nat) (rows : list Series) :
  relabel service k ((fun row : Series => <[py "label" := Str (py "N/A")]> row) <$> rows) =
  imap (fun i row =>
          <[py "label" := Str (classify_paper service (k + i) (paper_of row).1 (paper_of row).2)]> row)
       rows.
Proof.
  revert k. induction rows as [|row rows IH]; intros k; [done|].
  rewrite fmap_cons. cbn [relabel imap]. unfold needs_label at 1.
  rewrite lookup_insert_eq. cbn [unlabeled].
  rewrite bool_decide_eq_true_2 by done. f_equal.
  - rewrite Nat.add_0_r, insert_insert_eq. unfold paper_of.
    by rewrite !lookup_insert_ne by done.
  - rewrite IH. apply imap_ext. intros i row' _. cbn. do 4 f_equal. lia.
Qed.

Lemma needs_label_fresh (rows : list Series) :
  filter (fun row => needs_label row)
         ((fun row : Series => <[py "label" := Str (py "N/A")]> row) <$> rows) =
  (fun row : Series => <[py "label" := Str (py "N/A")]> row) <$> rows.
Proof.
  induction rows as [|row rows IH]; [done|].
  rewrite fmap_cons, filter_cons, decide_True, IH; [done|].
  unfold needs_label. by rewrite lookup_insert_eq.
Qed.

(** X23: on a store without the label column (the scraper's own output)
    the pass adds the column and classifies every row, in row order: row
    [i] gets the answer to request [i] for its own title and abstract. *)
Theorem annotate_papers_first_pass (d : DataFrame) (out : option DataFrame) :
  py "label" ∉ columns d ->
  Forall (fun row : Series => is_Some (row !! py "title") ∧ is_Some (row !! py "abstract"))
         (data d) ->
  ∃ r, annotate_papers service (Some d) out = Some r ∧
    columns (df r) = columns d ++ [py "label"] ∧
    calls r = paper_of <$> data d ∧
    data (df r) =
      imap (fun i row =>
              <[py "label" := Str (classify_paper service i (paper_of row).1 (paper_of row).2)]> row)
           (data d).
Proof.
  intros Hcol Hwf.
  assert (loadable d) as Hd.
  { unfold loadable. eapply Forall_impl; [exact Hwf|]. by intros row [? ?]. }
  unfold annotate_papers.
  destruct (iterrows_exact (data (ensure_label d)) []
              {| df := ensure_label d; output := out; calls := [] |}
              (loadable_readable d Hd) eq_refl)
    as (r & Hrun & Hrows & Hcalls & Hcols & _).
  exists r. split; [exact Hrun|].
  cbn [app calls length df] in Hrows, Hcalls, Hcols.
  unfold ensure_label in Hrows, Hcalls, Hcols.
  rewrite bool_decide_eq_false_2 in Hrows, Hcalls, Hcols by done.
  cbn [columns data] in Hrows, Hcalls, Hcols.
  split; [exact Hcols|]. split.
  - rewrite Hcalls, needs_label_fresh, <- list_fmap_compose.
    apply list_fmap_ext. intros i row _. unfold compose, paper_of.
    by rewrite !lookup_insert_ne by done.
  - by rewrite Hrows, relabel_fresh.
Qed.

End Pass.

(** ** The further properties on the small store *)

Lemma loadable_store : loadable demo.store.
Proof.
  repeat constructor; try (vm_compute; eexists; reflexivity);
    intros _; vm_compute; eexists; reflexivity.
Qed.

Lemma annotate_papers_relabels_witness :
  ∃ r, annotate_papers demo.gemini (Some demo.store) None = Some r ∧
       data (df r) = relabel demo.gemini 0 (data demo.store).
Proof.
  destruct (annotate_papers_relabels demo.gemini demo.store None loadable_store)
    as (r & Hrun & _ & Hrows & _).
  exists r. split; [exact Hrun|exact Hrows].
Defined.

Lemma annotate_papers_labels_every_row_witness :
  Forall (fun row => needs_label row = false) (data (df demo.annotated)).
Proof.
  apply (annotate_papers_labels_every_row demo.gemini demo.store None demo.annotated
           loadable_store).
  vm_compute. reflexivity.
Defined.

Lemma annotate_papers_again_witness :
  ∃ r', annotate_papers (fun _ _ => None) (Some (df demo.annotated)) None = Some r' ∧
        df r' = df demo.annotated ∧ calls r' = [].
Proof.
  apply (annotate_papers_again demo.gemini (fun _ _ => None) demo.store None None
           demo.annotated loadable_store).
  vm_compute. reflexivity.
Defined.

Lemma annotate_papers_key_error_witness :
  annotate_papers demo.gemini (Some demo.torn_store) None = None.
Proof.
  apply (annotate_papers_key_error demo.gemini demo.torn_store None demo.torn_row).
  - apply (bool_decide_unpack _). vm_compute. exact I.
  - left.
  - vm_compute. reflexivity.
  - left. vm_compute. reflexivity.
Defined.

Lemma annotate_papers_output_witness :
  output demo.annotated = Some (df demo.annotated).
Proof.
  apply (annotate_papers_output demo.gemini (Some demo.store) None demo.annotated).
  - vm_compute. reflexivity.
  - discriminate.
Defined.

Lemma annotate_papers_first_pass_witness :
  ∃ r, annotate_papers demo.gemini (Some demo.raw_store) None = Some r ∧
       columns (df r) = [py "title"; py "abstract"; py "label"] ∧
       length (calls r) = 2%nat.
Proof.
  destruct (annotate_papers_first_pass demo.gemini demo.raw_store None)
    as (r & Hrun & Hcols & Hcalls & _).
  - apply (bool_decide_unpack _). vm_compute. exact I.
  - repeat constructor; vm_compute; eexists; reflexivity.
  - exists r. split; [exact Hrun|]. split; [exact Hcols|]. by rewrite Hcalls.
Defined.

End annotation_extra.
